(** * gather: resource management and pooling of an HTTP client facade

    A shallow embedding of the Go package [gather]: the configuration
    registry and the timeout derivation, the two transport factories, the
    request builder with its header store, gzip detection and the bounded
    instance pool, followed by the properties proved about them.

    The package exists in two revisions, and both are embedded where they
    differ. [Registry] is the revision of new.go built around [GatherConfig]
    and [SetGatherConfig]; [NewGo] is the revision that keeps its settings
    in package variables and caches transports per proxy address. [Gzip]
    has both versions of [Ungzip]; [Exchange] follows util.go, get.go and
    post.go; [PoolM] is the pool.go whose constructors call
    [initFastConfigByTimeout].

    Package variables are threaded as a state, transports live in a store
    and are named by their address, a panic is an outcome of its own. The
    functions on package variables hold their mutex from start to end and
    are modelled as one step each; the pool, whose operations interleave
    between two such steps, is modelled one [sync.Map] or channel action at
    a time. The Go library is taken as parameters where its behaviour is
    open (URL parsing, the network, gzip inflation); output to the log is
    kept where a function tells a failure in no other way. *)

From Stdlib Require Import ZArith Lia Bool List Ascii String SpecFloat.
From Stdlib.Strings Require Import Byte.
From stdpp Require Import base option list gmap strings.

Local Open Scope Z_scope.

(** ** Go numbers: [int]/[int64], [time.Duration] and [float64] *)

Module GoNum.

Definition minInt64 : Z := - 2 ^ 63.
Definition maxInt64 : Z := 2 ^ 63 - 1.

(** Two's complement wrap-around of a 64-bit signed operation. *)
Definition wrap64 (z : Z) : Z := (z + 2 ^ 63) mod 2 ^ 64 - 2 ^ 63.

(** [time.Duration] is an [int64] count of nanoseconds. *)
Definition Nanosecond : Z := 1.
Definition Millisecond : Z := 1000000.
Definition Second : Z := 1000000000.
Definition Minute : Z := 60 * Second.

(** [time.Duration(n) * time.Second] for an [int] n. *)
Definition seconds (n : Z) : Z := wrap64 (n * Second).

(** IEEE-754 binary64, as specified by [SpecFloat]. *)
Definition prec : Z := 53.
Definition emax : Z := 1024.

(** [float64(n)] for an integer n: rounding to nearest, ties to even. *)
Definition float64_of_int (n : Z) : spec_float :=
  binary_normalize prec emax n 0 false.

Definition f64mul (x y : spec_float) : spec_float := SFmul prec emax x y.

(** [int64(f)]: truncation toward zero; a value that does not fit (or a
    NaN or an infinity) gives the "integer indefinite" value of amd64. *)
Definition int_of_float64 (f : spec_float) : Z :=
  match f with
  | S754_zero _ => 0
  | S754_finite s m e =>
      let a := if 0 <=? e then Z.pos m * 2 ^ e else Z.pos m / 2 ^ (- e) in
      let v := if s then - a else a in
      if (minInt64 <=? v) && (v <=? maxInt64) then v else minInt64
  | _ => minInt64
  end.

(** The float64 literals of the source. *)
Definition f64_0_1 : spec_float := S754_finite false 7205759403792794 (-56).
Definition f64_0_2 : spec_float := S754_finite false 7205759403792794 (-55).
Definition f64_0_4 : spec_float := S754_finite false 7205759403792794 (-54).
Definition f64_0_5 : spec_float := S754_finite false 4503599627370496 (-53).
Definition f64_0 : spec_float := S754_zero false.
Definition f64_1 : spec_float := S754_finite false 4503599627370496 (-52).
Definition f64_2 : spec_float := S754_finite false 4503599627370496 (-51).

(** [time.Duration(float64(d) * ratio)] and [int(float64(n) * ratio)]. *)
Definition scale (d : Z) (ratio : spec_float) : Z :=
  int_of_float64 (f64mul (float64_of_int d) ratio).

(** Float comparisons; every comparison with a NaN is false. *)
Definition f64le (x y : spec_float) : bool := SFleb x y.
Definition f64gt (x y : spec_float) : bool := SFltb y x.

End GoNum.

(** ** Outcomes: a Go call returns or panics *)

Inductive Field :=
| FMaxIdleConns | FMaxIdleConnsPerHost | FIdleConnTimeout | FDialTimeout
| FTLSHandshakeTimeout | FExpectContinueTimeout | FResponseHeaderTimeout
| FTCPLinger | FKeepAlive.

(** One entry of [errMsgs]: the field that broke its rule and the value
    printed after it. *)
Record Violation := mkViolation { vField : Field; vCurrent : Z }.

Inductive PanicMsg :=
| PanicNilConfig
| PanicInvalidConfig (errMsgs : list Violation)
| PanicTotalTimeout
| PanicNilPointer
| PanicIndexOutOfRange.

Inductive Outcome (A : Type) :=
| Returned (a : A)
| Panicked (msg : PanicMsg).
Arguments Returned {A} a.
Arguments Panicked {A} msg.

#[global] Instance Field_eq_dec : EqDecision Field.
Proof. solve_decision. Defined.

(** ** Client instances *)

(** Modelled from the spec: the cookie jar ([webCookieJar], built by
    [newWebCookieJar]) is not among the sources; the model keeps the flag it
    is created with. *)
Record webCookieJar := mkJar { isCookieLogOpen : bool }.

Definition newWebCookieJar (isCookieLogOpen : bool) : webCookieJar :=
  mkJar isCookieLogOpen.

(** [http.Client]: the transport is a pointer into the transport store
    (nil selects [http.DefaultTransport]); the jar may be nil. *)
Record HttpClient := mkClient {
  cTransport : option nat;
  cJar : option webCookieJar;
  cTimeout : Z
}.

Record GatherStruct := mkGather {
  Client : option HttpClient;
  Headers : gmap string string;
  safeHeaders : gmap string string;
  J : webCookieJar
}.

(** [for k, v := range gather.Headers { gather.safeHeaders.Store(k, v) }] *)
Definition syncHeaders (headers safe : gmap string string) : gmap string string :=
  headers ∪ safe.

(** ** Strings and URLs of the Go library *)

Module GoStr.
Local Open Scope string_scope.

(** [strings.Contains(s, substr)] *)
Definition Contains (s substr : string) : bool :=
  match String.index 0 substr s with Some _ => true | None => false end.

Definition lowerByte (c : ascii) : ascii :=
  let n := nat_of_ascii c in
  if ((65 <=? n) && (n <=? 90))%nat then ascii_of_nat (n + 32) else c.

(** [strings.ToLower] on the bytes of an ASCII string; bytes outside
    A-Z are kept. *)
Fixpoint ToLower (s : string) : string :=
  match s with
  | EmptyString => EmptyString
  | String c r => String (lowerByte c) (ToLower r)
  end.

Definition isCTL (c : ascii) : bool :=
  let n := nat_of_ascii c in ((n <? 32) || (n =? 127))%nat.

Fixpoint stringContainsCTLByte (s : string) : bool :=
  match s with
  | EmptyString => false
  | String c r => isCTL c || stringContainsCTLByte r
  end.

(** [*url.URL]: the text it was parsed from and its [User] field. *)
Record URL := mkURL { uRaw : string; uUser : option (string * string) }.

(** [url.Parse] first rejects any text that holds an ASCII control byte
    ("net/url: invalid control character in URL"); [rest] is the parser
    proper, which may reject more. *)
Definition url_Parse (rest : string -> option URL) (rawURL : string)
  : option URL :=
  if stringContainsCTLByte rawURL then None else rest rawURL.

(** A parser proper that accepts whatever is left. *)
Definition acceptAll (rawURL : string) : option URL :=
  Some (mkURL rawURL None).

Definition withUser (u : URL) (user pass : string) : URL :=
  mkURL (uRaw u) (Some (user, pass)).

Definition nonEmpty (s : string) : bool := negb (String.eqb s "").

(** The "http://" prefix that both authenticated-proxy paths add. *)
Definition withScheme (proxyUrl : string) : string :=
  if negb (Contains proxyUrl "http") then "http://" ++ proxyUrl else proxyUrl.

(** A proxy address read with its line end: "10.0.0.1:8080\n". *)
Definition proxyWithNewline : string :=
  "10.0.0.1:8080" ++ String (ascii_of_nat 10) EmptyString.
End GoStr.

(** ** The configuration registry and its transport factory *)

Module Registry.
Import GoNum.
Local Open Scope string_scope.
Local Open Scope Z_scope.

Record GatherConfig := mkGatherConfig {
  MaxIdleConns : Z;
  MaxIdleConnsPerHost : Z;
  IdleConnTimeout : Z;
  TLSInsecureSkipVerify : bool;
  DialTimeout : Z;
  TLSHandshakeTimeout : Z;
  ExpectContinueTimeout : Z;
  ResponseHeaderTimeout : Z;
  DisableCompression : bool;
  ForceAttemptHTTP2 : bool;
  TCPLinger : Z;
  KeepAlive : Z
}.

(** What a transport does for a proxy: none, a URL parsed again from a
    string on every request ([getHttpTransport]), or the fixed URL given
    to [http.ProxyURL] ([getHttpTransportHasPass]), nil included. *)
Inductive ProxyFunc :=
| ProxyNone
| ProxyParse (proxyURL : string)
| ProxyFixed (u : option GoStr.URL).

(** An [http.Transport] as [newTransport] fills it; the dialer's fields
    are the ones the [DialContext] closure reads from the configuration. *)
Record Transport := mkTransport {
  tInsecureSkipVerify : bool;
  tMaxIdleConns : Z;
  tMaxIdleConnsPerHost : Z;
  tIdleConnTimeout : Z;
  tTLSHandshakeTimeout : Z;
  tExpectContinueTimeout : Z;
  tResponseHeaderTimeout : Z;
  tDisableCompression : bool;
  tForceAttemptHTTP2 : bool;
  tDialTimeout : Z;
  tKeepAlive : Z;
  tTCPLinger : Z;
  tProxy : ProxyFunc
}.

(** The package variables. Transports live in a store and are named by
    their address, since the factory hands out shared pointers. *)
Record State := mkState {
  globalConfig : option GatherConfig;
  transportNoProxy : option nat;
  transports : list Transport
}.

Definition violations (cfg : GatherConfig) : list Violation :=
  (if MaxIdleConns cfg <=? 0
   then [mkViolation FMaxIdleConns (MaxIdleConns cfg)] else []) ++
  (if MaxIdleConnsPerHost cfg <=? 0
   then [mkViolation FMaxIdleConnsPerHost (MaxIdleConnsPerHost cfg)] else []) ++
  (if IdleConnTimeout cfg <=? 0
   then [mkViolation FIdleConnTimeout (IdleConnTimeout cfg)] else []) ++
  (if DialTimeout cfg <? 0
   then [mkViolation FDialTimeout (DialTimeout cfg)] else []) ++
  (if TLSHandshakeTimeout cfg <? 0
   then [mkViolation FTLSHandshakeTimeout (TLSHandshakeTimeout cfg)] else []) ++
  (if ExpectContinueTimeout cfg <? 0
   then [mkViolation FExpectContinueTimeout (ExpectContinueTimeout cfg)] else []) ++
  (if ResponseHeaderTimeout cfg <? 0
   then [mkViolation FResponseHeaderTimeout (ResponseHeaderTimeout cfg)] else []) ++
  (if TCPLinger cfg <? 0
   then [mkViolation FTCPLinger (TCPLinger cfg)] else []) ++
  (if KeepAlive cfg <=? 0
   then [mkViolation FKeepAlive (KeepAlive cfg)] else []).

(** [SetGatherConfig]: nil and invalid configurations panic before any
    package variable is written. *)
Definition SetGatherConfig (cfg : option GatherConfig) (st : State)
  : Outcome unit * State :=
  match cfg with
  | None => (Panicked PanicNilConfig, st)
  | Some c =>
      let errMsgs := violations c in
      if 0 <? Z.of_nat (length errMsgs)
      then (Panicked (PanicInvalidConfig errMsgs), st)
      else (Returned tt,
            {| globalConfig := Some c;
               transportNoProxy := None;
               transports := transports st |})
  end.

Definition floorAt (d minimum : Z) : Z := if d <? minimum then minimum else d.

Definition SetGatherConfigByClientTimeout
    (totalTimeout : Z) (isSlowConn tlsInsecure : bool) (st : State)
  : Outcome unit * State :=
  if totalTimeout <=? 0 then (Panicked PanicTotalTimeout, st) else
  let minDialTimeout := 1 * Second in
  let minTLSTimeout := 1 * Second in
  let minExpectTimeout := 500 * Millisecond in
  let minResponseHeaderTimeout := 2 * Second in
  let '(dialRatio, tlsRatio, expectRatio, responseHeaderRatio,
        idleConnTimeout, keepAlive, disableCompression, forceHTTP2, tcpLinger) :=
    if isSlowConn
    then (f64_0_2, f64_0_2, f64_0_1, f64_0_4,
          90 * Second, 60 * Second, false, false, 1)
    else (f64_0_2, f64_0_2, f64_0_1, f64_0_4,
          30 * Second, 30 * Second, true, true, 0) in
  let dialTimeout := floorAt (scale totalTimeout dialRatio) minDialTimeout in
  let tlsHandshakeTimeout := floorAt (scale totalTimeout tlsRatio) minTLSTimeout in
  let expectContinueTimeout :=
    floorAt (scale totalTimeout expectRatio) minExpectTimeout in
  let responseHeaderTimeout :=
    floorAt (scale totalTimeout responseHeaderRatio) minResponseHeaderTimeout in
  let responseHeaderTimeout := if isSlowConn then 0 else responseHeaderTimeout in
  let maxIdleConns := 100 in
  let maxIdleConnsPerHost := 100 in
  SetGatherConfig
    (Some {| MaxIdleConns := maxIdleConns;
             MaxIdleConnsPerHost := maxIdleConnsPerHost;
             IdleConnTimeout := idleConnTimeout;
             TLSInsecureSkipVerify := tlsInsecure;
             DialTimeout := dialTimeout;
             TLSHandshakeTimeout := tlsHandshakeTimeout;
             ExpectContinueTimeout := expectContinueTimeout;
             ResponseHeaderTimeout := responseHeaderTimeout;
             DisableCompression := disableCompression;
             ForceAttemptHTTP2 := forceHTTP2;
             TCPLinger := tcpLinger;
             KeepAlive := keepAlive |}) st.

Definition UseSlowConnConfig (st : State) : Outcome unit * State :=
  SetGatherConfigByClientTimeout (10 * Minute) true true st.


(** The package variables before [init] has run, and after it. *)
Definition zeroState : State :=
  {| globalConfig := None; transportNoProxy := None; transports := [] |}.

Definition initState : State := snd (UseSlowConnConfig zeroState).

(** [newTransport]: a fresh transport in the store; a nil configuration
    is dereferenced and panics. *)
Definition newTransport (cfg : option GatherConfig) (proxy : ProxyFunc)
    (st : State) : Outcome nat * State :=
  match cfg with
  | None => (Panicked PanicNilPointer, st)
  | Some c =>
      let transport :=
        {| tInsecureSkipVerify := TLSInsecureSkipVerify c;
           tMaxIdleConns := MaxIdleConns c;
           tMaxIdleConnsPerHost := MaxIdleConnsPerHost c;
           tIdleConnTimeout := IdleConnTimeout c;
           tTLSHandshakeTimeout := TLSHandshakeTimeout c;
           tExpectContinueTimeout := ExpectContinueTimeout c;
           tResponseHeaderTimeout := ResponseHeaderTimeout c;
           tDisableCompression := DisableCompression c;
           tForceAttemptHTTP2 := ForceAttemptHTTP2 c;
           tDialTimeout := DialTimeout c;
           tKeepAlive := KeepAlive c;
           tTCPLinger := TCPLinger c;
           tProxy := proxy |} in
      (Returned (length (transports st)),
       {| globalConfig := globalConfig st;
          transportNoProxy := transportNoProxy st;
          transports := transports st ++ [transport] |})
  end.

(** [getHttpTransport]: the no-proxy singleton is built once and reused;
    with a proxy every call builds a transport. *)
Definition getHttpTransport (proxyURL : string) (st : State)
  : Outcome nat * State :=
  let cfg := globalConfig st in
  if String.eqb proxyURL "" then
    match transportNoProxy st with
    | None =>
        match newTransport cfg ProxyNone st with
        | (Returned t, st') =>
            (Returned t,
             {| globalConfig := globalConfig st';
                transportNoProxy := Some t;
                transports := transports st' |})
        | (Panicked msg, st') => (Panicked msg, st')
        end
    | Some t => (Returned t, st)
    end
  else newTransport cfg (ProxyParse proxyURL) st.

Section WithParser.
  (** [url.Parse] of the Go library. *)
Variable urlParse : string -> option GoStr.URL.

  (** [getHttpTransportHasPass]: the parse error is dropped; a nil URL is
      dereferenced when both user and password are given, and otherwise
      goes to [http.ProxyURL] as it is. *)
Definition getHttpTransportHasPass (proxyUrl user pass : string)
      (st : State) : Outcome nat * State :=
    let cfg := globalConfig st in
    let proxyUrl :=
      if negb (GoStr.Contains proxyUrl "http")
      then ("http://" ++ proxyUrl)%string else proxyUrl in
    let urlProxy := urlParse proxyUrl in
    if GoStr.nonEmpty user && GoStr.nonEmpty pass then
      match urlProxy with
      | None => (Panicked PanicNilPointer, st)
      | Some u => newTransport cfg (ProxyFixed (Some (GoStr.withUser u user pass))) st
      end
    else newTransport cfg (ProxyFixed urlProxy) st.
End WithParser.

(** The browser headers that replace a header map holding only a
    User-Agent; [ie] is the text used for "ie" and "ie9", which differs
    between the two constructors. *)
Definition chromeUA : string :=
  "Mozilla/5.0 (Windows NT 6.1; Win64; x64) AppleWebKit/537.36 (KHTML, like Gecko) Chrome/56.0.2924.87 Safari/537.36".

Definition userAgentOf (ie v : string) : string :=
  let l := GoStr.ToLower v in
  if String.eqb l "baidu" then
    "Mozilla/5.0 (compatible; Baiduspider/2.0;++http://www.baidu.com/search/spider.html)"
  else if String.eqb l "google" then
    "Mozilla/5.0 (compatible; Googlebot/2.1;+http://www.google.com/bot.html)"
  else if String.eqb l "bing" then
    "Mozilla/5.0 (compatible; bingbot/2.0;+http://www.bing.com/bingbot.htm)"
  else if String.eqb l "chrome" then chromeUA
  else if String.eqb l "360" then
    "Mozilla/5.0 (Windows NT 6.1; WOW64) AppleWebKit/537.36 (KHTML, like Gecko) Chrome/45.0.2454.101 Safari/537.36"
  else if String.eqb l "ie" || String.eqb l "ie9" then ie
  else if String.eqb l "" then chromeUA
  else v.

Definition defaultHeaders (ie v : string) : gmap string string :=
  <["User-Agent" := userAgentOf ie v]>
  (<["Upgrade-Insecure-Requests" := "1"]>
  (<["Connection" := "keep-alive"]>
  (<["Accept-Language" := "zh-CN,zh;q=0.8"]>
  (<["Accept-Encoding" := "gzip, deflate, sdch"]>
  (<["Accept" := "text/html,application/xhtml+xml,application/xml;q=0.9,image/webp,*/*;q=0.8"]>
   ∅))))).

Definition chooseHeaders (ie : string) (headers : gmap string string)
  : gmap string string :=
  if (size headers =? 1)%nat then
    match headers !! "User-Agent" with
    | Some v => defaultHeaders ie v
    | None => headers
    end
  else headers.

Definition ieUtil : string :=
  "Mozilla/5.0 (compatible; MSIE 9.0; Windows NT 6.1; Win64; x64; Trident/5.0)".
Definition ieHasPass : string :=
  "Mozilla/5.0 (compatible; MSIE 9.0; Windows NT 6.1; Win64; x64) Trident/5.0)".

Definition NewGatherUtil (headers : gmap string string) (proxyURL : string)
    (timeOut : Z) (isCookieLogOpen : bool) (st : State)
  : Outcome GatherStruct * State :=
  let hs := chooseHeaders ieUtil headers in
  let jar := newWebCookieJar isCookieLogOpen in
  match getHttpTransport proxyURL st with
  | (Panicked msg, st') => (Panicked msg, st')
  | (Returned t, st') =>
      (Returned {| Client := Some (mkClient (Some t) (Some jar) (seconds timeOut));
                   Headers := hs;
                   safeHeaders := syncHeaders hs ∅;
                   J := jar |}, st')
  end.

Definition NewGather (defaultAgent : string) (isCookieLogOpen : bool)
    (st : State) : Outcome GatherStruct * State :=
  NewGatherUtil {["User-Agent" := defaultAgent]} "" 300 isCookieLogOpen st.

Definition NewGatherProxy (defaultAgent proxyURL : string)
    (isCookieLogOpen : bool) (st : State) : Outcome GatherStruct * State :=
  NewGatherUtil {["User-Agent" := defaultAgent]} proxyURL 300 isCookieLogOpen st.

Section WithParserCtor.
Variable urlParse : string -> option GoStr.URL.

Definition NewGatherUtilHasPass (headers : gmap string string)
      (proxyURL user pass : string) (timeOut : Z) (isCookieLogOpen : bool)
      (st : State) : Outcome GatherStruct * State :=
    let hs := chooseHeaders ieHasPass headers in
    let jar := newWebCookieJar isCookieLogOpen in
    match getHttpTransportHasPass urlParse proxyURL user pass st with
    | (Panicked msg, st') => (Panicked msg, st')
    | (Returned t, st') =>
        (Returned {| Client := Some (mkClient (Some t) (Some jar) (seconds timeOut));
                     Headers := hs;
                     safeHeaders := syncHeaders hs ∅;
                     J := jar |}, st')
    end.

Definition NewGatherProxyHasPassUtil (headers : gmap string string)
      (proxyURL user pass : string) (isCookieLogOpen : bool) (st : State)
    : Outcome GatherStruct * State :=
    NewGatherUtilHasPass headers proxyURL user pass 300 isCookieLogOpen st.
End WithParserCtor.

End Registry.


(** ** The caching transport factory (new.go) *)

Module NewGo.
Import GoNum.
Local Open Scope string_scope.
Local Open Scope Z_scope.

(** The exported package variables. *)
Record Vars := mkVars {
  MaxIdleConns : Z;
  MaxIdleConnsPerHostNoProxy : spec_float;
  MaxIdleConnsPerHostWithProxy : spec_float;
  TLSInsecureSkipVerify : bool;
  DialTimeout : Z;
  IdleConnTimeout : Z;
  TLSHandshakeTimeout : Z;
  ExpectContinueTimeout : Z;
  ResponseHeaderTimeout : Z
}.

Definition defaultVars : Vars :=
  {| MaxIdleConns := 100;
     MaxIdleConnsPerHostNoProxy := f64_0_2;
     MaxIdleConnsPerHostWithProxy := f64_0_1;
     TLSInsecureSkipVerify := true;
     DialTimeout := 10 * Second;
     IdleConnTimeout := 90 * Second;
     TLSHandshakeTimeout := 10 * Second;
     ExpectContinueTimeout := 1 * Second;
     ResponseHeaderTimeout := 15 * Second |}.

Inductive ProxyFunc :=
| ProxyNone
| ProxyParse (proxyURL : string)
| ProxyFixed (u : GoStr.URL).

Record Transport := mkTransport {
  tInsecureSkipVerify : bool;
  tDisableCompression : bool;
  tForceAttemptHTTP2 : bool;
  tMaxIdleConns : Z;
  tMaxIdleConnsPerHost : Z;
  tIdleConnTimeout : Z;
  tTLSHandshakeTimeout : Z;
  tExpectContinueTimeout : Z;
  tResponseHeaderTimeout : Z;
  tProxy : ProxyFunc
}.

(** What the constructors write with [log.Printf]. *)
Inductive LogLine :=
| LogParseAuthProxyFailed (proxyUrl : string)
| LogUseBasicClient.

Record State := mkState {
  vars : Vars;
  transportNoProxy : option nat;
  transportProxyMap : gmap string nat;
  transports : list Transport;
  logged : list LogLine
}.

Definition initState : State :=
  {| vars := defaultVars; transportNoProxy := None; transportProxyMap := ∅;
     transports := []; logged := [] |}.

Definition newBaseTransport (v : Vars) : Transport :=
  {| tInsecureSkipVerify := TLSInsecureSkipVerify v;
     tDisableCompression := true;
     tForceAttemptHTTP2 := true;
     tMaxIdleConns := MaxIdleConns v;
     tMaxIdleConnsPerHost := 0;
     tIdleConnTimeout := IdleConnTimeout v;
     tTLSHandshakeTimeout := TLSHandshakeTimeout v;
     tExpectContinueTimeout := ExpectContinueTimeout v;
     tResponseHeaderTimeout := ResponseHeaderTimeout v;
     tProxy := ProxyNone |}.

Definition withPerHost (t : Transport) (n : Z) : Transport :=
  {| tInsecureSkipVerify := tInsecureSkipVerify t;
     tDisableCompression := tDisableCompression t;
     tForceAttemptHTTP2 := tForceAttemptHTTP2 t;
     tMaxIdleConns := tMaxIdleConns t;
     tMaxIdleConnsPerHost := n;
     tIdleConnTimeout := tIdleConnTimeout t;
     tTLSHandshakeTimeout := tTLSHandshakeTimeout t;
     tExpectContinueTimeout := tExpectContinueTimeout t;
     tResponseHeaderTimeout := tResponseHeaderTimeout t;
     tProxy := tProxy t |}.

Definition withProxy (t : Transport) (p : ProxyFunc) : Transport :=
  {| tInsecureSkipVerify := tInsecureSkipVerify t;
     tDisableCompression := tDisableCompression t;
     tForceAttemptHTTP2 := tForceAttemptHTTP2 t;
     tMaxIdleConns := tMaxIdleConns t;
     tMaxIdleConnsPerHost := tMaxIdleConnsPerHost t;
     tIdleConnTimeout := tIdleConnTimeout t;
     tTLSHandshakeTimeout := tTLSHandshakeTimeout t;
     tExpectContinueTimeout := tExpectContinueTimeout t;
     tResponseHeaderTimeout := tResponseHeaderTimeout t;
     tProxy := p |}.

(** [getHttpTransport]: the no-proxy singleton, or the cache entry of the
    proxy address, built on the first call for that address. *)
Definition getHttpTransport (proxyURL : string) (st : State) : nat * State :=
  if String.eqb proxyURL "" then
    match transportNoProxy st with
    | None =>
        let perHost := scale (MaxIdleConns (vars st))
                             (MaxIdleConnsPerHostNoProxy (vars st)) in
        let t := withPerHost (newBaseTransport (vars st)) (Z.max perHost 1) in
        let a := length (transports st) in
        (a, {| vars := vars st; transportNoProxy := Some a;
               transportProxyMap := transportProxyMap st;
               transports := transports st ++ [t];
               logged := logged st |})
    | Some a => (a, st)
    end
  else
    match transportProxyMap st !! proxyURL with
    | Some a => (a, st)
    | None =>
        let t := withProxy (newBaseTransport (vars st)) (ProxyParse proxyURL) in
        let perHost := scale (MaxIdleConns (vars st))
                             (MaxIdleConnsPerHostWithProxy (vars st)) in
        let t := withPerHost t (Z.max perHost 1) in
        let a := length (transports st) in
        (a, {| vars := vars st; transportNoProxy := transportNoProxy st;
               transportProxyMap := <[proxyURL := a]> (transportProxyMap st);
               transports := transports st ++ [t];
               logged := logged st |})
    end.

(** The factory called for each address of a list in turn. *)
Definition calls (proxyURLs : list string) (st : State) : State :=
  foldl (fun st k => snd (getHttpTransport k st)) st proxyURLs.

Definition newBaseTransportWithAuth (v : Vars) (proxyURL : GoStr.URL)
  : Transport :=
  {| tInsecureSkipVerify := TLSInsecureSkipVerify v;
     tDisableCompression := true;
     tForceAttemptHTTP2 := true;
     tMaxIdleConns := MaxIdleConns v;
     tMaxIdleConnsPerHost := MaxIdleConns v;
     tIdleConnTimeout := IdleConnTimeout v;
     tTLSHandshakeTimeout := TLSHandshakeTimeout v;
     tExpectContinueTimeout := ExpectContinueTimeout v;
     tResponseHeaderTimeout := 0;
     tProxy := ProxyFixed proxyURL |}.

Definition log (l : LogLine) (st : State) : State :=
  {| vars := vars st; transportNoProxy := transportNoProxy st;
     transportProxyMap := transportProxyMap st;
     transports := transports st; logged := logged st ++ [l] |}.

Definition getDefaultHeaders (uaType : string) : gmap string string :=
  let chrome :=
    "Mozilla/5.0 (Windows NT 10.0; Win64; x64) AppleWebKit/537.36 (KHTML, like Gecko) Chrome/120.0.0.0 Safari/537.36" in
  let l := GoStr.ToLower uaType in
  let ua :=
    if String.eqb l "baidu" then
      "Mozilla/5.0 (compatible; Baiduspider/2.0; +http://www.baidu.com/search/spider.html)"
    else if String.eqb l "google" then
      "Mozilla/5.0 (compatible; Googlebot/2.1; +http://www.google.com/bot.html)"
    else if String.eqb l "bing" then
      "Mozilla/5.0 (compatible; bingbot/2.0; +http://www.bing.com/bingbot.htm)"
    else if String.eqb l "chrome" then chrome
    else if String.eqb l "360" then
      "Mozilla/5.0 (Windows NT 10.0; WOW64) AppleWebKit/537.36 (KHTML, like Gecko) Chrome/45.0.2454.101 Safari/537.36"
    else if String.eqb l "ie" || String.eqb l "ie9" then
      "Mozilla/5.0 (compatible; MSIE 9.0; Windows NT 10.0; Win64; x64; Trident/5.0)"
    else if String.eqb l "" then chrome
    else uaType in
  <["User-Agent" := ua]>
  (<["Accept" := "text/html,application/xhtml+xml,application/xml;q=0.9,image/webp,image/apng,*/*;q=0.8"]>
  (<["Upgrade-Insecure-Requests" := "1"]>
  (<["Connection" := "keep-alive"]>
  (<["Accept-Language" := "zh-CN,zh;q=0.9,en;q=0.8"]>
  (<["Accept-Encoding" := "gzip, deflate"]> ∅))))).

Definition chooseHeaders (headers : gmap string string) : gmap string string :=
  let needAddDefaultHeaders :=
    (size headers =? 1)%nat && bool_decide (is_Some (headers !! "User-Agent")) in
  if needAddDefaultHeaders
  then getDefaultHeaders (default "" (headers !! "User-Agent"))
  else headers.

Definition clientTimeout (timeOut : Z) : Z :=
  if timeOut <=? 0 then 0 else seconds timeOut.

Definition NewGatherUtil (headers : gmap string string) (proxyURL : string)
    (timeOut : Z) (isCookieLogOpen : bool) (st : State) : GatherStruct * State :=
  let hs := chooseHeaders headers in
  let jar := newWebCookieJar isCookieLogOpen in
  let '(t, st') := getHttpTransport proxyURL st in
  ({| Client := Some (mkClient (Some t) (Some jar) (clientTimeout timeOut));
      Headers := hs;
      safeHeaders := syncHeaders hs ∅;
      J := jar |}, st').

Section WithParser.
Variable urlParse : string -> option GoStr.URL.

Definition parseProxyURLWithAuth (proxyUrl user pass : string)
    : string * option GoStr.URL :=
    let proxyUrl :=
      if negb (GoStr.Contains proxyUrl "http")
      then ("http://" ++ proxyUrl)%string else proxyUrl in
    match urlParse proxyUrl with
    | None => (proxyUrl, None)
    | Some urlProxy =>
        if GoStr.nonEmpty user && GoStr.nonEmpty pass
        then (proxyUrl, Some (GoStr.withUser urlProxy user pass))
        else (proxyUrl, Some urlProxy)
    end.

  (** [getHttpTransportHasPass]: nil when the proxy URL does not parse;
      the error goes to the log only. *)
Definition getHttpTransportHasPass (proxyUrl user pass : string)
      (st : State) : option nat * State :=
    match parseProxyURLWithAuth proxyUrl user pass with
    | (shown, None) => (None, log (LogParseAuthProxyFailed shown) st)
    | (_, Some urlProxy) =>
        let a := length (transports st) in
        (Some a,
         {| vars := vars st; transportNoProxy := transportNoProxy st;
            transportProxyMap := transportProxyMap st;
            transports := transports st ++ [newBaseTransportWithAuth (vars st) urlProxy];
            logged := logged st |})
    end.

  (** [NewGatherUtilHasPass]: when no transport could be built, the
      instance gets a client with neither transport nor jar. *)
Definition NewGatherUtilHasPass (headers : gmap string string)
      (proxyURL user pass : string) (timeOut : Z) (isCookieLogOpen : bool)
      (st : State) : GatherStruct * State :=
    let hs := chooseHeaders headers in
    let jar := newWebCookieJar isCookieLogOpen in
    let timeout := clientTimeout timeOut in
    match getHttpTransportHasPass proxyURL user pass st with
    | (None, st') =>
        ({| Client := Some (mkClient None None timeout);
            Headers := hs; safeHeaders := syncHeaders hs ∅; J := jar |},
         log LogUseBasicClient st')
    | (Some t, st') =>
        ({| Client := Some (mkClient (Some t) (Some jar) timeout);
            Headers := hs; safeHeaders := syncHeaders hs ∅; J := jar |}, st')
    end.

Definition NewGatherProxyHasPassUtil (headers : gmap string string)
      (proxyURL user pass : string) (isCookieLogOpen : bool) (st : State)
    : GatherStruct * State :=
    NewGatherUtilHasPass headers proxyURL user pass 300 isCookieLogOpen st.
End WithParser.

End NewGo.

(** ** Errors, requests and responses *)

Inductive GzErr :=
| GzEOF              (* io.EOF *)
| GzUnexpectedEOF    (* io.ErrUnexpectedEOF *)
| GzErrHeader        (* gzip.ErrHeader *)
| GzErrChecksum      (* gzip.ErrChecksum *)
| GzCorrupt (offset : nat).   (* flate.CorruptInputError *)

(** The text that [fmt.Errorf] puts in front of a wrapped error. *)
Inductive WrapTag :=
| WrapGzipFailed | WrapGzipRead | WrapNewRequest | WrapDo | WrapReadBody
| WrapMultipartBoundary | WrapMultipartBuild | WrapMultipartRequest
| WrapMultipartDo.

Inductive GoError :=
| errNoFreeClinetFind              (* "time out,no free client find" *)
| ErrGz (e : GzErr)
| ErrAbortHandler                  (* http.ErrAbortHandler *)
| ErrStatus (code : Z)
| ErrInvalidURL (url : string)
| ErrNet (code : nat)              (* an error of the HTTP library *)
| ErrBoundary (boundary : string)
| ErrWrap (tag : WrapTag) (e : GoError).

(** (html, redirectURL, err) *)
Definition Reply : Type := list byte * string * option GoError.

Record Request := mkRequest {
  rMethod : string;
  rURL : string;
  rHeader : gmap string string;
  rBody : option (list byte)
}.

Record Response := mkResponse {
  StatusCode : Z;
  Body : GoError + list byte;     (* what io.ReadAll(resp.Body) gives *)
  FinalURL : string               (* resp.Request.URL.String() *)
}.

(** ** gzip detection *)

Module Gzip.
Local Open Scope string_scope.
Local Open Scope Z_scope.

Definition errorText (e : GzErr) : string :=
  match e with
  | GzEOF => "EOF"
  | GzUnexpectedEOF => "unexpected EOF"
  | GzErrHeader => "gzip: invalid header"
  | GzErrChecksum => "gzip: invalid checksum"
  | GzCorrupt _ => "flate: corrupt input before offset"
  end.

Definition byteAt (data : list byte) (i : nat) : byte := nth i data x00.

(** [data[0] == 0x1F && data[1] == 0x8B] on at least two bytes. *)
Definition signed (data : list byte) : bool :=
  (2 <=? length data)%nat && Byte.eqb (byteAt data 0) x1f
    && Byte.eqb (byteAt data 1) x8b.

Section Library.
  (** The parts of compress/gzip that follow the fixed ten-byte header:
      the optional header fields, and the inflation of the whole stream
      by [io.ReadAll]. *)
Variable headerRest : list byte -> option GzErr.
Variable readAll : list byte -> GzErr + list byte.

  (** [gzip.NewReader(bytes.NewReader(data))]: reads ten bytes, checks
      the two magic bytes and the deflate method, parses the rest of the
      header. *)
Definition gzip_NewReader (data : list byte) : GzErr + list byte :=
    if (length data =? 0)%nat then inl GzEOF
    else if (length data <? 10)%nat then inl GzUnexpectedEOF
    else if negb (Byte.eqb (byteAt data 0) x1f && Byte.eqb (byteAt data 1) x8b
                  && Byte.eqb (byteAt data 2) x08)
    then inl GzErrHeader
    else match headerRest data with
         | Some e => inl e
         | None => inr data
         end.

  (** [Ungzip] of util.go: the magic bytes decide. *)
Definition Ungzip (data : list byte) : list byte * option GoError :=
    if (length data =? 0)%nat then ([], None)
    else if (length data <? 2)%nat
            || negb (Byte.eqb (byteAt data 0) x1f)
            || negb (Byte.eqb (byteAt data 1) x8b)
    then (data, None)
    else match gzip_NewReader data with
         | inl err => ([], Some (ErrGz err))
         | inr reader =>
             match readAll reader with
             | inl err => ([], Some (ErrGz err))
             | inr uncompressedData => (uncompressedData, None)
             end
         end.

  (** [Ungzip] of the other revision: the text of the error of
      [gzip.NewReader] decides. *)
Definition Ungzip_byError (data : list byte) : list byte * option GoError :=
    if (length data =? 0)%nat then ([], None)
    else match gzip_NewReader data with
         | inl err =>
             if GoStr.Contains (errorText err) "gzip: invalid header"
             then (data, None)
             else ([], Some (ErrWrap WrapGzipFailed (ErrGz err)))
         | inr reader =>
             match readAll reader with
             | inl err => ([], Some (ErrWrap WrapGzipRead (ErrGz err)))
             | inr uncompressedData => (uncompressedData, None)
             end
         end.
End Library.

(** The five bytes of "hello". *)
Definition hello : list byte := [x68; x65; x6c; x6c; x6f].
End Gzip.

(** ** Exchanges of one client instance (util.go, get.go, post.go) *)

Module Exchange.
Local Open Scope string_scope.
Local Open Scope Z_scope.

Record MultipartPostFile := mkFile {
  FileName : string;
  ContentType : string;
  Content : list byte
}.

Definition storeHeader (k v : string) (g : GatherStruct) : GatherStruct :=
  {| Client := Client g; Headers := Headers g;
     safeHeaders := <[k := v]> (safeHeaders g); J := J g |}.

Section WithLibrary.
  (** The Go library: URL parsing, canonical header keys, the round trip
      of [http.Client.Do] with the reading of the body, gzip, and the
      encoders of form and multipart bodies. *)
Variable urlParse : string -> option GoStr.URL.
Variable CanonicalMIMEHeaderKey : string -> string.
Variable clientDo : HttpClient -> Request -> GoError + Response.
Variable headerRest : list byte -> option GzErr.
Variable readAll : list byte -> GzErr + list byte.
Variable formEncode : gmap string string -> list byte.
Variable multipartBuild :
    string -> gmap string string -> gmap string MultipartPostFile ->
    GoError + (list byte * string).

  (** [requestHeaders.Set(key, val)] *)
Definition headerSet (key val : string) (h : gmap string string)
    : gmap string string := <[CanonicalMIMEHeaderKey key := val]> h.

  (** The [Range] over the header store that fills the request's own
      header set. *)
Definition loadHeaders (store : gmap string string) : gmap string string :=
    foldr (fun kv h =>
             if GoStr.nonEmpty kv.1 && GoStr.nonEmpty kv.2
             then headerSet kv.1 kv.2 h else h)
          ∅ (map_to_list store).

Definition newHttpRequest (g : GatherStruct)
      (method URL refererURL cookies : string) (body : option (list byte))
    : Outcome (GoError + Request) :=
    match Client g with
    | None => Panicked PanicNilPointer
    | Some _ =>
        match urlParse URL with
        | None => Returned (inl (ErrInvalidURL URL))
        | Some _ =>
            let requestHeaders := loadHeaders (safeHeaders g) in
            let requestHeaders :=
              if GoStr.nonEmpty refererURL
              then headerSet "Referer" refererURL requestHeaders
              else requestHeaders in
            let requestHeaders :=
              if GoStr.nonEmpty cookies
              then headerSet "Cookie" cookies requestHeaders
              else requestHeaders in
            Returned (inr (mkRequest method URL requestHeaders body))
        end
    end.

  (** [request] of util.go: the error of [Ungzip] is dropped. *)
Definition request (g : GatherStruct) (req : Request) : Outcome Reply :=
    match Client g with
    | None => Panicked PanicNilPointer
    | Some c =>
        match clientDo c req with
        | inl err => Returned ([], "", Some err)
        | inr resp =>
            if (StatusCode resp <? 200) || (300 <=? StatusCode resp)
            then Returned ([], "", Some ErrAbortHandler)
            else match Body resp with
                 | inl err => Returned ([], "", Some err)
                 | inr respBody =>
                     let html := fst (Gzip.Ungzip headerRest readAll respBody) in
                     Returned (html, FinalURL resp, None)
                 end
        end
    end.

Definition exchange (g : GatherStruct) (r : Outcome (GoError + Request))
    : Outcome Reply * GatherStruct :=
    match r with
    | Panicked msg => (Panicked msg, g)
    | Returned (inl err) => (Returned ([], "", Some err), g)
    | Returned (inr req) => (request g req, g)
    end.

Definition GetUtil (g : GatherStruct) (URL refererURL cookies : string)
    : Outcome Reply * GatherStruct :=
    exchange g (newHttpRequest g "GET" URL refererURL cookies None).


  (** [if _, exist := g.safeHeaders.Load("Content-Type"); !exist
       { g.safeHeaders.Store("Content-Type", v) }] *)
Definition defaultContentType (v : string) (g : GatherStruct) : GatherStruct :=
    match safeHeaders g !! "Content-Type" with
    | Some _ => g
    | None => storeHeader "Content-Type" v g
    end.

Definition PostUtil (g : GatherStruct) (URL refererURL cookies : string)
      (postMap : gmap string string) : Outcome Reply * GatherStruct :=
    let postDataBytes := formEncode postMap in
    let g :=
      defaultContentType "application/x-www-form-urlencoded; charset=utf-8" g in
    exchange g (newHttpRequest g "POST" URL refererURL cookies (Some postDataBytes)).

Definition Post (g : GatherStruct) (URL refererURL : string)
      (postMap : gmap string string) : Outcome Reply * GatherStruct :=
    PostUtil g URL refererURL "" postMap.


Definition PostBytes (g : GatherStruct) (URL refererURL cookies : string)
      (postBytes : list byte) : Outcome Reply * GatherStruct :=
    let g := defaultContentType "application/octet-stream" g in
    exchange g (newHttpRequest g "POST" URL refererURL cookies (Some postBytes)).

Definition PostXMLUtil (g : GatherStruct) (URL refererURL cookies : string)
      (postXML : list byte) : Outcome Reply * GatherStruct :=
    let g := defaultContentType "application/xml; charset=utf-8" g in
    exchange g (newHttpRequest g "POST" URL refererURL cookies (Some postXML)).

Definition PostXML (g : GatherStruct) (URL refererURL : string)
      (postXML : list byte) : Outcome Reply * GatherStruct :=
    PostXMLUtil g URL refererURL "" postXML.

Definition PostJsonUtil (g : GatherStruct) (URL refererURL cookies : string)
      (postJson : list byte) : Outcome Reply * GatherStruct :=
    let g := defaultContentType "application/json; charset=utf-8" g in
    exchange g (newHttpRequest g "POST" URL refererURL cookies (Some postJson)).

Definition PostJson (g : GatherStruct) (URL refererURL : string)
      (postJson : list byte) : Outcome Reply * GatherStruct :=
    PostJsonUtil g URL refererURL "" postJson.

Definition wrapReply (tag : WrapTag) (r : Outcome Reply) : Outcome Reply :=
    match r with
    | Returned (_, _, Some err) => Returned ([], "", Some (ErrWrap tag err))
    | other => other
    end.

Definition PostMultipartFormDataUtil (g : GatherStruct)
      (URL refererURL cookies boundary : string)
      (postValueMap : gmap string string)
      (postFileMap : gmap string MultipartPostFile)
    : Outcome Reply * GatherStruct :=
    match multipartBuild boundary postValueMap postFileMap with
    | inl err => (Returned ([], "", Some err), g)
    | inr (body, formDataContentType) =>
        let g := storeHeader "Content-Type" formDataContentType g in
        match newHttpRequest g "POST" URL refererURL cookies (Some body) with
        | Panicked msg => (Panicked msg, g)
        | Returned (inl err) =>
            (Returned ([], "", Some (ErrWrap WrapMultipartRequest err)), g)
        | Returned (inr req) => (wrapReply WrapMultipartDo (request g req), g)
        end
    end.

Definition PostMultipartFormData (g : GatherStruct)
      (URL refererURL boundary : string)
      (postValueMap : gmap string string)
      (postFileMap : gmap string MultipartPostFile)
    : Outcome Reply * GatherStruct :=
    PostMultipartFormDataUtil g URL refererURL "" boundary postValueMap postFileMap.
End WithLibrary.

(** The behaviour of the Go library (and of the network behind it) during
  one exchange. *)
Record Library := mkLibrary {
  urlParse : string -> option GoStr.URL;
  CanonicalMIMEHeaderKey : string -> string;
  clientDo : HttpClient -> Request -> GoError + Response;
  headerRest : list byte -> option GzErr;
  readAll : list byte -> GzErr + list byte;
  formEncode : gmap string string -> list byte
}.

(** A library for the examples: any text without control bytes is a URL,
    header keys are kept as written, every request is answered 200 with
    the body "ok", and bodies encode to nothing. *)
Definition exampleDo (c : HttpClient) (req : Request) : GoError + Response :=
  inr (mkResponse 200 (inr [x6f; x6b]) (rURL req)).

Definition exampleLibrary : Library :=
  {| urlParse := GoStr.url_Parse GoStr.acceptAll;
     CanonicalMIMEHeaderKey := fun k => k;
     clientDo := exampleDo;
     headerRest := fun _ => None;
     readAll := fun d => inr d;
     formEncode := fun _ => [] |}.



(** The instance that [NewGather("chrome", false)] of new.go returns
    first. *)
Definition chromeInstance : GatherStruct :=
  fst (NewGo.NewGatherUtil {["User-Agent" := "chrome"]} "" 300 false
         NewGo.initState).
End Exchange.

(** ** The instance pool (pool.go) *)

Module PoolM.
Import GoNum.
Local Open Scope string_scope.
Local Open Scope Z_scope.

Record PoolConfig := mkPoolConfig {
  MaxIdleConns : Z;
  MaxIdleConnsPerHostRatio : spec_float;
  TimeoutSecond : Z;
  RetryIntervalMs : Z;
  MaxPoolSize : Z;
  IsUseSemaphore : bool
}.

Definition defaultPoolConfig : PoolConfig :=
  {| MaxIdleConns := 0;
     MaxIdleConnsPerHostRatio := f64_0_2;
     TimeoutSecond := 30;
     RetryIntervalMs := 100;
     MaxPoolSize := 100;
     IsUseSemaphore := true |}.

(** [sem] is the number of permits buffered in the channel, [None] for
    the nil channel of a pool built without semaphore; the capacity of
    the channel is the pool size. *)
Record Pool := mkPool {
  unUsed : gmap Z bool;
  pool : list GatherStruct;
  sem : option nat;
  config : PoolConfig
}.

Definition initFastConfigByTimeout (timeoutSecond : Z) (st : Registry.State)
  : Outcome unit * Registry.State :=
  Registry.SetGatherConfigByClientTimeout (seconds timeoutSecond) false true st.

Definition getValidatedConfig (cfg : PoolConfig) : PoolConfig :=
  let ratio :=
    if f64le (MaxIdleConnsPerHostRatio cfg) f64_0
       || f64gt (MaxIdleConnsPerHostRatio cfg) f64_1
    then MaxIdleConnsPerHostRatio defaultPoolConfig
    else MaxIdleConnsPerHostRatio cfg in
  let timeoutSecond :=
    if TimeoutSecond cfg <=? 0 then TimeoutSecond defaultPoolConfig
    else TimeoutSecond cfg in
  let retryIntervalMs :=
    if (RetryIntervalMs cfg <? 10) || (1000 <? RetryIntervalMs cfg)
    then RetryIntervalMs defaultPoolConfig else RetryIntervalMs cfg in
  let maxPoolSize :=
    if MaxPoolSize cfg <=? 0 then MaxPoolSize defaultPoolConfig
    else MaxPoolSize cfg in
  {| MaxIdleConns := MaxIdleConns cfg;
     MaxIdleConnsPerHostRatio := ratio;
     TimeoutSecond := timeoutSecond;
     RetryIntervalMs := retryIntervalMs;
     MaxPoolSize := maxPoolSize;
     IsUseSemaphore := IsUseSemaphore cfg |}.

Definition adjustPoolSize (num maxPoolSize : Z) : Z :=
  if num <=? 0 then 1
  else if maxPoolSize <? num then maxPoolSize
  else num.

(** [transport.MaxIdleConns = a; transport.MaxIdleConnsPerHost = b] on
    the transport the pointer names. *)
Definition sizeTransport (a b : Z) (t : Registry.Transport) : Registry.Transport :=
  {| Registry.tInsecureSkipVerify := Registry.tInsecureSkipVerify t;
     Registry.tMaxIdleConns := a;
     Registry.tMaxIdleConnsPerHost := b;
     Registry.tIdleConnTimeout := Registry.tIdleConnTimeout t;
     Registry.tTLSHandshakeTimeout := Registry.tTLSHandshakeTimeout t;
     Registry.tExpectContinueTimeout := Registry.tExpectContinueTimeout t;
     Registry.tResponseHeaderTimeout := Registry.tResponseHeaderTimeout t;
     Registry.tDisableCompression := Registry.tDisableCompression t;
     Registry.tForceAttemptHTTP2 := Registry.tForceAttemptHTTP2 t;
     Registry.tDialTimeout := Registry.tDialTimeout t;
     Registry.tKeepAlive := Registry.tKeepAlive t;
     Registry.tTCPLinger := Registry.tTCPLinger t;
     Registry.tProxy := Registry.tProxy t |}.

Definition perHostOf (maxIdleConns : Z) (cfg : PoolConfig) : Z :=
  let n := scale maxIdleConns (MaxIdleConnsPerHostRatio cfg) in
  if n <=? 0 then 1 else n.

Definition newGatherUtilWithCustomConfig (headers : gmap string string)
    (proxyURL : string) (timeOut : Z) (isCookieLogOpen : bool)
    (maxIdleConns : Z) (cfg : PoolConfig) (st : Registry.State)
  : Outcome GatherStruct * Registry.State :=
  let jar := newWebCookieJar isCookieLogOpen in
  match Registry.getHttpTransport proxyURL st with
  | (Panicked msg, st') => (Panicked msg, st')
  | (Returned t, st') =>
      let st'' :=
        {| Registry.globalConfig := Registry.globalConfig st';
           Registry.transportNoProxy := Registry.transportNoProxy st';
           Registry.transports :=
             alter (sizeTransport maxIdleConns (perHostOf maxIdleConns cfg))
                   t (Registry.transports st') |} in
      (Returned {| Client := Some (mkClient (Some t) (Some jar) (seconds timeOut));
                   Headers := headers;
                   safeHeaders := syncHeaders headers ∅;
                   J := jar |}, st'')
  end.

(** The two loops of the constructors: [count] more rounds from index i. *)
Fixpoint fillSem (count : nat) (tokens : nat) : nat :=
  match count with
  | O => tokens
  | S k => fillSem k (S tokens)
  end.

Fixpoint buildInstances (count : nat) (i : Z)
    (headers : gmap string string) (proxyURL : string) (timeOut : Z)
    (isCookieLogOpen : bool) (finalMaxIdleConns : Z) (cfg : PoolConfig)
    (gp : Pool) (st : Registry.State) : Outcome Pool * Registry.State :=
  match count with
  | O => (Returned gp, st)
  | S k =>
      match newGatherUtilWithCustomConfig headers proxyURL timeOut
              isCookieLogOpen finalMaxIdleConns cfg st with
      | (Panicked msg, st') => (Panicked msg, st')
      | (Returned ga, st') =>
          buildInstances k (i + 1) headers proxyURL timeOut isCookieLogOpen
            finalMaxIdleConns cfg
            {| unUsed := <[i := true]> (unUsed gp);
               pool := pool gp ++ [ga];
               sem := sem gp;
               config := config gp |} st'
      end
  end.

(** The body the two constructors share once the configuration is
    chosen. *)
Definition buildPool (headers : gmap string string) (proxyURL : string)
    (timeOut : Z) (isCookieLogOpen : bool) (num : Z) (cfg : PoolConfig)
    (st : Registry.State) : Outcome Pool * Registry.State :=
  let num := adjustPoolSize num (MaxPoolSize cfg) in
  let finalMaxIdleConns :=
    if MaxIdleConns cfg =? 0 then num else MaxIdleConns cfg in
  let gp :=
    {| unUsed := ∅; pool := [];
       sem := if IsUseSemaphore cfg then Some (fillSem (Z.to_nat num) 0) else None;
       config := cfg |} in
  buildInstances (Z.to_nat num) 0 headers proxyURL timeOut isCookieLogOpen
    finalMaxIdleConns cfg gp st.

Definition NewGatherUtilPool (headers : gmap string string)
    (proxyURL : string) (timeOut : Z) (isCookieLogOpen : bool) (num : Z)
    (st : Registry.State) : Outcome Pool * Registry.State :=
  match initFastConfigByTimeout timeOut st with
  | (Panicked msg, st') => (Panicked msg, st')
  | (Returned _, st') =>
      buildPool headers proxyURL timeOut isCookieLogOpen num defaultPoolConfig st'
  end.

Definition NewGatherUtilPoolWithConfig (headers : gmap string string)
    (proxyURL : string) (timeOut : Z) (isCookieLogOpen : bool) (num : Z)
    (cfg : PoolConfig) (st : Registry.State) : Outcome Pool * Registry.State :=
  match initFastConfigByTimeout timeOut st with
  | (Panicked msg, st') => (Panicked msg, st')
  | (Returned _, st') =>
      buildPool headers proxyURL timeOut isCookieLogOpen num
        (getValidatedConfig cfg) st'
  end.

(** *** Exchanges on the pool, one atomic action at a time *)

(** The four operations; each delegates to the method of the same kind
    of the leased instance ([Get] passes an empty cookie string to
    [GetUtil]). *)
Inductive PoolOp :=
| OpGet (URL refererURL : string)
| OpGetUtil (URL refererURL cookies : string)
| OpPost (URL refererURL : string) (postMap : gmap string string)
| OpPostUtil (URL refererURL cookies : string) (postMap : gmap string string).

(** Where a caller stands in the body of an operation. *)
Inductive PC :=
| AtSelect                       (* at the select on p.sem and ctx.Done() *)
| InLoop (num : Z)               (* getPoolIndex, round num, poolIndex = -1 *)
| InCallback (idx : Z)           (* the Range callback got (idx, true) *)
| Delegating (idx : Z)           (* idx deleted; the instance runs the exchange *)
| DeferStore (idx : Z) (r : Outcome Reply)  (* deferred unUsed.Store(idx, true) *)
| DeferSem (r : Outcome Reply)   (* deferred p.sem <- struct{}{} *)
| Done (r : Outcome Reply).      (* returned to the caller *)

(** What one action of a caller is. *)
Inductive Event :=
| RecvPermit                     (* case <-p.sem *)
| CtxDone                        (* case <-ctx.Done() *)
| ScanHit (idx : Z)              (* Range calls back with (idx, true) *)
| ScanMiss                       (* Range ends, nothing free; sleep *)
| DeleteIdx                      (* p.unUsed.Delete(idx) in the callback *)
| DelegateReturns (lib : Exchange.Library)   (* the instance method ends *)
| StoreIdx                       (* the deferred Store runs *)
| SendPermit.                    (* the deferred send runs *)

Definition noFreeReply : Outcome Reply :=
  Returned ([], "", Some errNoFreeClinetFind).

(** [(TimeoutSecond * 1000) / RetryIntervalMs]; the interval of a pool that
    a constructor built is between 10 and 1000 (or the default 100), never
    the 0 on which the division would panic. *)
Definition maxRetry (cfg : PoolConfig) : Z :=
  Z.quot (wrap64 (TimeoutSecond cfg * 1000)) (RetryIntervalMs cfg).

(** After the index is given back (or was never found): the deferred
    send of the permit, if a permit was taken. *)
Definition unwindSem (cfg : PoolConfig) (r : Outcome Reply) : PC :=
  if IsUseSemaphore cfg then DeferSem r else Done r.

(** The head of round num of [getPoolIndex]; running out of rounds
    returns -1. *)
Definition loopHead (cfg : PoolConfig) (num : Z) : PC :=
  if num <? maxRetry cfg then InLoop num else unwindSem cfg noFreeReply.

(** Where an operation starts once its context is made. *)
Definition start (cfg : PoolConfig) : PC :=
  if IsUseSemaphore cfg then AtSelect else loopHead cfg 0.

(** The method of the leased instance that each operation calls. *)
Definition delegateOf (lib : Exchange.Library) (op : PoolOp) (g : GatherStruct)
  : Outcome Reply * GatherStruct :=
  let getUtil :=
    Exchange.GetUtil (Exchange.urlParse lib) (Exchange.CanonicalMIMEHeaderKey lib)
      (Exchange.clientDo lib) (Exchange.headerRest lib) (Exchange.readAll lib) in
  let postUtil :=
    Exchange.PostUtil (Exchange.urlParse lib) (Exchange.CanonicalMIMEHeaderKey lib)
      (Exchange.clientDo lib) (Exchange.headerRest lib) (Exchange.readAll lib)
      (Exchange.formEncode lib) in
  match op with
  | OpGet URL refererURL => getUtil g URL refererURL ""
  | OpGetUtil URL refererURL cookies => getUtil g URL refererURL cookies
  | OpPost URL refererURL postMap =>
      Exchange.Post (Exchange.urlParse lib) (Exchange.CanonicalMIMEHeaderKey lib)
        (Exchange.clientDo lib) (Exchange.headerRest lib) (Exchange.readAll lib)
        (Exchange.formEncode lib) g URL refererURL postMap
  | OpPostUtil URL refererURL cookies postMap =>
      postUtil g URL refererURL cookies postMap
  end.

(** [p.pool[poolIndex].X(...)]: the exchange of the instance at the index,
  which may write to that instance; an index outside the slice panics. *)
Definition delegate (lib : Exchange.Library) (op : PoolOp) (idx : Z) (p : Pool)
  : Outcome Reply * Pool :=
  match (if 0 <=? idx then pool p !! Z.to_nat idx else None) with
  | Some g =>
      let '(r, g') := delegateOf lib op g in
      (r, {| unUsed := unUsed p; pool := <[Z.to_nat idx := g']> (pool p);
             sem := sem p; config := config p |})
  | None => (Panicked PanicIndexOutOfRange, p)
  end.

Definition setUnUsed (m : gmap Z bool) (p : Pool) : Pool :=
  {| unUsed := m; pool := pool p; sem := sem p; config := config p |}.

Definition setSem (s : option nat) (p : Pool) : Pool :=
  {| unUsed := unUsed p; pool := pool p; sem := s; config := config p |}.

(** One action of one caller; [None] when the action is not possible
    where the caller stands (a receive on an empty channel blocks, a
    send on a full one too). *)
Definition callerStep (op : PoolOp) (e : Event) (p : Pool) (c : PC)
  : option (Pool * PC) :=
  let cfg := config p in
  match c, e with
  | AtSelect, RecvPermit =>
      match sem p with
      | Some (S k) => Some (setSem (Some k) p, loopHead cfg 0)
      | _ => None
      end
  | AtSelect, CtxDone => Some (p, Done noFreeReply)
  | InLoop num, CtxDone => Some (p, unwindSem cfg noFreeReply)
  | InLoop num, ScanHit idx =>
      if bool_decide (unUsed p !! idx = Some true)
      then Some (p, InCallback idx) else None
  | InLoop num, ScanMiss => Some (p, loopHead cfg (num + 1))
  | InCallback idx, DeleteIdx =>
      Some (setUnUsed (delete idx (unUsed p)) p, Delegating idx)
  | Delegating idx, DelegateReturns lib =>
      let '(r, p') := delegate lib op idx p in Some (p', DeferStore idx r)
  | DeferStore idx r, StoreIdx =>
      Some (setUnUsed (<[idx := true]> (unUsed p)) p, unwindSem cfg r)
  | DeferSem r, SendPermit =>
      match sem p with
      | Some k =>
          if (k <? length (pool p))%nat
          then Some (setSem (Some (S k)) p, Done r) else None
      | None => None
      end
  | _, _ => None
  end.

(** A pool and the callers running an operation on it. *)
Record System := mkSystem {
  shared : Pool;
  callers : list (PoolOp * PC)
}.

Definition initial (p : Pool) (ops : list PoolOp) : System :=
  {| shared := p; callers := (fun op => (op, start (config p))) <$> ops |}.

(** Caller i does e. *)
Definition step (ie : nat * Event) (s : System) : option System :=
  match callers s !! ie.1 with
  | None => None
  | Some (op, c) =>
      match callerStep op ie.2 (shared s) c with
      | None => None
      | Some (p', c') =>
          Some {| shared := p'; callers := <[ie.1 := (op, c')]> (callers s) |}
      end
  end.

Fixpoint run (trace : list (nat * Event)) (s : System) : option System :=
  match trace with
  | [] => Some s
  | ie :: rest =>
      match step ie s with
      | None => None
      | Some s' => run rest s'
      end
  end.

Definition holdsLease (c : PoolOp * PC) : bool :=
  match c.2 with
  | Delegating _ | DeferStore _ _ => true
  | _ => false
  end.




Definition count (f : PoolOp * PC -> bool) (l : list (PoolOp * PC)) : nat :=
  length (filter (fun c => f c = true) l).

(** The number of callers that hold a leased instance. *)
Definition leasedCount (s : System) : nat := count holdsLease (callers s).









(** A pool of one instance built without semaphore, as the pool tests
  build it, and two callers on it. *)
Definition noSemConfig : PoolConfig :=
  {| MaxIdleConns := 0; MaxIdleConnsPerHostRatio := f64_0_5;
     TimeoutSecond := 10; RetryIntervalMs := 200; MaxPoolSize := 0;
     IsUseSemaphore := false |}.

Definition noSemPool : Outcome Pool :=
  fst (NewGatherUtilPoolWithConfig {["User-Agent" := "test-pool/1.0"]} "" 5
         false 1 noSemConfig Registry.initState).

Definition twoGets : list PoolOp :=
  [OpGet "http://127.0.0.1/get" ""; OpGet "http://127.0.0.1/get" ""].

(** Both callers are called back with index 0 before either deletes it. *)
Definition raceTrace : list (nat * Event) :=
  [(0%nat, ScanHit 0); (1%nat, ScanHit 0); (0%nat, DeleteIdx); (1%nat, DeleteIdx)].

(** A pool of two instances with the default configuration, three
  callers, and a run in which the third finds no permit in time. *)
Definition defaultPool : Outcome Pool :=
  fst (NewGatherUtilPool {["User-Agent" := "test-pool/1.0"]} "" 5 false 2
         Registry.initState).


(** The two pools as values. *)
Definition poolOf (o : Outcome Pool) : Pool :=
  match o with
  | Returned p => p
  | Panicked _ => mkPool ∅ [] None defaultPoolConfig
  end.


Definition okReply : Outcome Reply :=
  Returned ([x6f; x6b], "http://127.0.0.1/get", None).

(** One caller that goes through a whole operation. *)
Definition soloTrace : list (nat * Event) :=
  [(0%nat, RecvPermit); (0%nat, ScanHit 0); (0%nat, DeleteIdx);
   (0%nat, DelegateReturns Exchange.exampleLibrary); (0%nat, StoreIdx);
   (0%nat, SendPermit)].

(** Two callers with a permit each whose scans are both called back with
    index 0. *)
Definition sharedLeaseTrace : list (nat * Event) :=
  [(0%nat, RecvPermit); (1%nat, RecvPermit); (0%nat, ScanHit 0);
   (1%nat, ScanHit 0); (0%nat, DeleteIdx); (1%nat, DeleteIdx)].


End PoolM.

(** ** The rules of the configuration, as the specification words them *)

Module Rules.
Import Registry.
Local Open Scope Z_scope.

Definition allFields : list Field :=
  [FMaxIdleConns; FMaxIdleConnsPerHost; FIdleConnTimeout; FDialTimeout;
   FTLSHandshakeTimeout; FExpectContinueTimeout; FResponseHeaderTimeout;
   FTCPLinger; FKeepAlive].

Definition fieldValue (c : GatherConfig) (f : Field) : Z :=
  match f with
  | FMaxIdleConns => MaxIdleConns c
  | FMaxIdleConnsPerHost => MaxIdleConnsPerHost c
  | FIdleConnTimeout => IdleConnTimeout c
  | FDialTimeout => DialTimeout c
  | FTLSHandshakeTimeout => TLSHandshakeTimeout c
  | FExpectContinueTimeout => ExpectContinueTimeout c
  | FResponseHeaderTimeout => ResponseHeaderTimeout c
  | FTCPLinger => TCPLinger c
  | FKeepAlive => KeepAlive c
  end.

(** A phase timeout or the linger value is violated when negative; the
    idle-connection timeout, the keep-alive and the two sizes of the
    connection pool when not positive. *)
Definition ruleBroken (f : Field) (v : Z) : bool :=
  match f with
  | FDialTimeout | FTLSHandshakeTimeout | FExpectContinueTimeout
  | FResponseHeaderTimeout | FTCPLinger => v <? 0
  | FMaxIdleConns | FMaxIdleConnsPerHost | FIdleConnTimeout | FKeepAlive => v <=? 0
  end.

Definition brokenFields (c : GatherConfig) : list Field :=
  List.filter (fun f => ruleBroken f (fieldValue c f)) allFields.

(** A configuration that breaks three rules at once. *)
Definition threeBroken : GatherConfig :=
  {| MaxIdleConns := 100; MaxIdleConnsPerHost := 0;
     IdleConnTimeout := 0;
     TLSInsecureSkipVerify := true;
     DialTimeout := -1;
     TLSHandshakeTimeout := GoNum.Second;
     ExpectContinueTimeout := GoNum.Second;
     ResponseHeaderTimeout := 0;
     DisableCompression := false;
     ForceAttemptHTTP2 := false;
     TCPLinger := 0;
     KeepAlive := GoNum.Second |}.

(** A nil configuration, or one that breaks at least one rule. *)
Definition invalidConfig (cfg : option GatherConfig) : Prop :=
  match cfg with
  | None => True
  | Some c => exists f, ruleBroken f (fieldValue c f) = true
  end.
End Rules.

(** ** What a transport owes to a profile, and what a pool does to it *)

Module Shape.
Import Registry.
Local Open Scope Z_scope.



(** The instance's client uses the transport at address a. *)
Definition usesTransport (g : GatherStruct) (a : nat) : Prop :=
  exists c, Client g = Some c /\ cTransport c = Some a.





(** The pool size the specification promises. *)
Definition clamp (num maxPoolSize : Z) : Z := Z.min (Z.max num 1) maxPoolSize.
End Shape.

(** ** Quoting of multipart header parameters (post.go) *)

(** The part of unicode/utf8 that a [range] over a string and
    [bytes.Buffer.WriteRune] use. *)
Module Utf8.
Local Open Scope Z_scope.

Definition RuneError : Z := 65533.

Definition code (c : ascii) : Z := Z.of_nat (nat_of_ascii c).
Definition chr (z : Z) : ascii := ascii_of_nat (Z.to_nat z).

Definition inRange (lo hi b : Z) : bool := (lo <=? b) && (b <=? hi).

(** The table [first] with [acceptRanges] of unicode/utf8: the length of
    the sequence that a leading byte opens and the range of its second
    byte; [None] for a byte that opens no sequence. *)
Definition leading (b0 : Z) : option (nat * Z * Z) :=
  if inRange 194 223 b0 then Some (2%nat, 128, 191)
  else if b0 =? 224 then Some (3%nat, 160, 191)
  else if inRange 225 236 b0 then Some (3%nat, 128, 191)
  else if b0 =? 237 then Some (3%nat, 128, 159)
  else if inRange 238 239 b0 then Some (3%nat, 128, 191)
  else if b0 =? 240 then Some (4%nat, 144, 191)
  else if inRange 241 243 b0 then Some (4%nat, 128, 191)
  else if b0 =? 244 then Some (4%nat, 128, 143)
  else None.

(** [utf8.DecodeRuneInString]: the rune at the head of the bytes and its
    width; a byte that starts no well-formed sequence is [RuneError] of
    width 1. *)
Definition DecodeRune (s : list ascii) : Z * nat :=
  match s with
  | [] => (RuneError, 0%nat)
  | c0 :: rest =>
      let b0 := code c0 in
      if b0 <? 128 then (b0, 1%nat)
      else match leading b0, rest with
           | Some (sz, lo, hi), c1 :: rest1 =>
               let b1 := code c1 in
               if negb (inRange lo hi b1) then (RuneError, 1%nat)
               else if (sz =? 2)%nat
               then ((b0 mod 32) * 64 + b1 mod 64, 2%nat)
               else match rest1 with
                    | c2 :: rest2 =>
                        let b2 := code c2 in
                        if negb (inRange 128 191 b2) then (RuneError, 1%nat)
                        else if (sz =? 3)%nat
                        then ((b0 mod 16) * 4096 + (b1 mod 64) * 64
                              + b2 mod 64, 3%nat)
                        else match rest2 with
                             | c3 :: _ =>
                                 let b3 := code c3 in
                                 if negb (inRange 128 191 b3)
                                 then (RuneError, 1%nat)
                                 else ((b0 mod 8) * 262144
                                       + (b1 mod 64) * 4096
                                       + (b2 mod 64) * 64 + b3 mod 64, 4%nat)
                             | [] => (RuneError, 1%nat)
                             end
                    | [] => (RuneError, 1%nat)
                    end
           | _, _ => (RuneError, 1%nat)
           end
  end.

(** [for _, c := range s]: the runes of a string, one for each sequence
    and one [RuneError] for each byte outside a sequence.  [skip] counts
    the bytes that belong to the rune decoded last. *)
Fixpoint runes (skip : nat) (s : list ascii) : list Z :=
  match s with
  | [] => []
  | c :: rest =>
      match skip with
      | S k => runes k rest
      | O => let '(r, w) := DecodeRune s in r :: runes (Nat.pred w) rest
      end
  end.

(** [utf8.AppendRune], which [bytes.Buffer.WriteRune] uses: a rune
    outside the Unicode range or in the surrogate range is written as
    [RuneError]. *)
Definition AppendRune (r : Z) : list ascii :=
  map chr
    (if inRange 0 127 r then [r]
     else if inRange 0 2047 r then [192 + r / 64; 128 + r mod 64]
     else if (r <? 0) || (1114111 <? r) || inRange 55296 57343 r
     then [239; 191; 189]
     else if r <=? 65535
     then [224 + r / 4096; 128 + (r / 64) mod 64; 128 + r mod 64]
     else [240 + r / 262144; 128 + (r / 4096) mod 64;
           128 + (r / 64) mod 64; 128 + r mod 64]).

(** A byte that is not ASCII. *)
Definition high (c : ascii) : Prop := 128 <= code c.

(** [utf8.ValidString]: no byte decodes to [RuneError] of width 1. *)
Fixpoint ValidFrom (skip : nat) (s : list ascii) : bool :=
  match s with
  | [] => true
  | c :: rest =>
      match skip with
      | S k => ValidFrom k rest
      | O => let '(r, w) := DecodeRune s in
             negb ((r =? RuneError) && (w =? 1)%nat) && ValidFrom (Nat.pred w) rest
      end
  end.

End Utf8.

Module Quote.
Local Open Scope string_scope.
Local Open Scope Z_scope.

Definition dquote : ascii := Utf8.chr 34.
Definition backslash : ascii := Utf8.chr 92.

(** The test of both loops: the rune is a double quote, a carriage
    return, a line feed or a backslash. *)
Definition special (c : Z) : bool :=
  (c =? 34) || (c =? 13) || (c =? 10) || (c =? 92).

(** One round of the [switch] of the second loop. *)
Definition escapeRune (c : Z) : list ascii :=
  if (c =? 34) || (c =? 92) then backslash :: Utf8.AppendRune c
  else if c =? 13 then [backslash; Utf8.chr 114]
  else if c =? 10 then [backslash; Utf8.chr 110]
  else Utf8.AppendRune c.

Definition quote (s : string) : string :=
  if (String.length s =? 0)%nat then String dquote (String dquote "")
  else
    let cs := Utf8.runes 0 (list_ascii_of_string s) in
    let needsEscape := existsb special cs in
    if negb needsEscape then String dquote (s ++ String dquote "")
    else String dquote
           (string_of_list_ascii (flat_map escapeRune cs) ++ String dquote "").

(** The Content-Disposition header of a file part in
    [PostMultipartFormDataUtil]. *)
Definition contentDisposition (name fileName : string) : string :=
  "form-data; name=" ++ quote name ++ "; filename=" ++ quote fileName.

(** A string with its special bytes written as two-byte escapes. *)
Definition plain (c : ascii) : Prop := special (Utf8.code c) = false.

Inductive Escaped : list ascii -> Prop :=
| Escaped_nil : Escaped []
| Escaped_plain c rest : plain c -> Escaped rest -> Escaped (c :: rest)
| Escaped_pair c rest :
    c = dquote \/ c = backslash \/ c = Utf8.chr 114 \/ c = Utf8.chr 110 ->
    Escaped rest -> Escaped (backslash :: c :: rest).

Definition CR : ascii := Utf8.chr 13.
Definition LF : ascii := Utf8.chr 10.

(** Reading a quoted body back: a backslash gives the byte after it its
    meaning. *)
Fixpoint unescape (l : list ascii) : list ascii :=
  match l with
  | [] => []
  | c :: rest =>
      if Ascii.eqb c backslash
      then match rest with
           | d :: rest' =>
               (if Ascii.eqb d (Utf8.chr 114) then CR
                else if Ascii.eqb d (Utf8.chr 110) then LF else d)
               :: unescape rest'
           | [] => [c]
           end
      else c :: unescape rest
  end.

(** A file name with a double quote and a carriage return in it. *)
Definition sampleName : string :=
  String (Utf8.chr 97) (String dquote (String (Utf8.chr 98) (String CR ""))).

End Quote.

Ltac bools :=
  repeat match goal with
  | H : (_ && _) = true |- _ => apply andb_prop in H; destruct H
  | H : (_ || _) = false |- _ => apply orb_false_elim in H; destruct H
  | H : negb _ = false |- _ => apply negb_false_iff in H
  | H : negb _ = true |- _ => apply negb_true_iff in H
  | H : (_ <=? _) = true |- _ => apply Z.leb_le in H
  | H : (_ <=? _) = false |- _ => apply Z.leb_gt in H
  | H : (_ <? _) = true |- _ => apply Z.ltb_lt in H
  | H : (_ <? _) = false |- _ => apply Z.ltb_ge in H
  | H : (_ =? _) = true |- _ => apply Z.eqb_eq in H
  | H : (_ =? _) = false |- _ => apply Z.eqb_neq in H
  end.

(** ** Runs of the pool: what a caller has left to do, what it returns *)

Module PoolRun.
Import PoolM.
Local Open Scope Z_scope.

(** A bound on the actions a caller can still take from where it stands:
    the rounds of [getPoolIndex] that are left, then the five actions from
    the callback to the return. *)
Definition budget (cfg : PoolConfig) (c : PC) : nat :=
  match c with
  | Done _ => 0
  | DeferSem _ => 1
  | DeferStore _ _ => 2
  | Delegating _ => 3
  | InCallback _ => 4
  | InLoop num => 5 + Z.to_nat (maxRetry cfg - num)
  | AtSelect => 6 + Z.to_nat (maxRetry cfg)
  end.

(** The number of actions of caller i in a trace. *)
Definition actionsOf (i : nat) (trace : list (nat * Event)) : nat :=
  length (filter (fun ie => ie.1 = i) trace).

(** The reply a caller carries once the method of the instance has
    returned, or once the acquisition failed. *)
Definition pendingReply (c : PC) : option (Outcome Reply) :=
  match c with
  | DeferStore _ r | DeferSem r | Done r => Some r
  | _ => None
  end.



End PoolRun.

(** ** The constructors of the first revision of pool.go *)

Module PoolRev1.
Import PoolM.
Local Open Scope Z_scope.

(** [config ...PoolConfig]: the default configuration when no
    configuration is passed, the first one validated otherwise; the
    registry is not touched. *)
Definition NewGatherUtilPoolWithConfig (headers : gmap string string)
    (proxyURL : string) (timeOut : Z) (isCookieLogOpen : bool) (num : Z)
    (config : list PoolConfig) (st : Registry.State)
  : Outcome Pool * Registry.State :=
  let cfg :=
    match config with
    | [] => defaultPoolConfig
    | c :: _ => getValidatedConfig c
    end in
  buildPool headers proxyURL timeOut isCookieLogOpen num cfg st.

Definition NewGatherUtilPool (headers : gmap string string)
    (proxyURL : string) (timeOut : Z) (isCookieLogOpen : bool) (num : Z)
    (st : Registry.State) : Outcome Pool * Registry.State :=
  NewGatherUtilPoolWithConfig headers proxyURL timeOut isCookieLogOpen num
    [defaultPoolConfig] st.

End PoolRev1.

(** ** The other revision of util.go: [request] falls back to the body *)

Module Fallback.
Local Open Scope string_scope.
Local Open Scope Z_scope.

Section WithLibrary.
Variable clientDo : HttpClient -> Request -> GoError + Response.
Variable headerRest : list byte -> option GzErr.
Variable readAll : list byte -> GzErr + list byte.

  (** [request]: errors are wrapped, a status outside 2xx is reported with
      its code, and when [Ungzip] fails the body is returned as it was
      read. *)
Definition request (g : GatherStruct) (req : Request) : Outcome Reply :=
    match Client g with
    | None => Panicked PanicNilPointer
    | Some c =>
        match clientDo c req with
        | inl err => Returned ([], "", Some (ErrWrap WrapDo err))
        | inr resp =>
            if (StatusCode resp <? 200) || (300 <=? StatusCode resp)
            then Returned ([], "", Some (ErrStatus (StatusCode resp)))
            else match Body resp with
                 | inl err => Returned ([], "", Some (ErrWrap WrapReadBody err))
                 | inr respBody =>
                     let '(html, err) :=
                       Gzip.Ungzip_byError headerRest readAll respBody in
                     let html :=
                       match err with
                       | Some _ => respBody
                       | None => html
                       end in
                     Returned (html, FinalURL resp, None)
                 end
        end
    end.
End WithLibrary.

(** Ten bytes that are no gzip stream, and a short body with the gzip
    signature. *)
Definition tenBytes : list byte :=
  [x30; x31; x32; x33; x34; x35; x36; x37; x38; x39].

Definition signedStub : list byte := [x1f; x8b; x08].

(** An instance with a client, and a round trip that answers 200 with the
    body given. *)
Definition withClient : GatherStruct :=
  {| Client := Some (mkClient None None 0); Headers := ∅; safeHeaders := ∅;
     J := newWebCookieJar false |}.

Definition answers (body : list byte) (c : HttpClient) (req : Request)
  : GoError + Response :=
  inr (mkResponse 200 (inr body) (rURL req)).

(** A reply with an error carries neither text nor URL. *)
Definition bare (r : Outcome Reply) : Prop :=
  forall html url e,
    r = Returned (html, url, Some e) -> html = [] /\ url = "".

End Fallback.

(** * Properties *)

(** ** Numbers *)


(** The float computation of the shares at some total timeouts: thirty
    seconds, ten minutes, the five-second boundary of the dial floor, and
    one nanosecond. *)
Example scale_thirty_seconds :
  GoNum.scale (30 * GoNum.Second) GoNum.f64_0_2 = 6 * GoNum.Second
  /\ GoNum.scale (30 * GoNum.Second) GoNum.f64_0_1 = 3 * GoNum.Second
  /\ GoNum.scale (30 * GoNum.Second) GoNum.f64_0_4 = 12 * GoNum.Second.
Proof. vm_compute. auto. Qed.

Example scale_ten_minutes :
  GoNum.scale (10 * GoNum.Minute) GoNum.f64_0_2 = 120 * GoNum.Second
  /\ GoNum.scale (10 * GoNum.Minute) GoNum.f64_0_4 = 240 * GoNum.Second.
Proof. vm_compute. auto. Qed.

Example scale_boundary :
  GoNum.scale (5 * GoNum.Second) GoNum.f64_0_2 = GoNum.Second
  /\ GoNum.scale (5 * GoNum.Second - 1) GoNum.f64_0_2 = GoNum.Second - 1
  /\ GoNum.scale 1 GoNum.f64_0_4 = 0.
Proof. vm_compute. auto. Qed.

(** ** The configuration registry *)

Lemma violations_spec (c : Registry.GatherConfig) :
  Registry.violations c =
  List.map (fun f => mkViolation f (Rules.fieldValue c f)) (Rules.brokenFields c).
Proof.
  unfold Registry.violations, Rules.brokenFields, Rules.allFields.
  cbn [List.filter Rules.ruleBroken Rules.fieldValue].
  destruct (Registry.MaxIdleConns c <=? 0),
           (Registry.MaxIdleConnsPerHost c <=? 0),
           (Registry.IdleConnTimeout c <=? 0),
           (Registry.DialTimeout c <? 0),
           (Registry.TLSHandshakeTimeout c <? 0),
           (Registry.ExpectContinueTimeout c <? 0),
           (Registry.ResponseHeaderTimeout c <? 0),
           (Registry.TCPLinger c <? 0),
           (Registry.KeepAlive c <=? 0); reflexivity.
Qed.

Lemma brokenFields_complete (c : Registry.GatherConfig) (f : Field) :
  In f (Rules.brokenFields c) <-> Rules.ruleBroken f (Rules.fieldValue c f) = true.
Proof.
  unfold Rules.brokenFields. rewrite filter_In. split; [tauto|].
  intros H. split; [|exact H]. destruct f; cbn; tauto.
Qed.



(** C5. An invalid configuration (nil, a negative phase timeout or linger
    value, an idle-connection timeout, keep-alive or connection-pool size
    that is not positive) makes [SetGatherConfig] panic and leaves every
    package variable as it was; the panic of a non-nil configuration lists
    one entry for every field that breaks its rule, all of them together,
    in the order of the checks, and no other entry. *)
Theorem SetGatherConfig_invalid_rejected
    (cfg : option Registry.GatherConfig) (st : Registry.State) :
  Rules.invalidConfig cfg ->
  snd (Registry.SetGatherConfig cfg st) = st
  /\ match cfg with
     | None => fst (Registry.SetGatherConfig cfg st) = Panicked PanicNilConfig
     | Some c =>
         exists errMsgs,
           fst (Registry.SetGatherConfig cfg st) = Panicked (PanicInvalidConfig errMsgs)
           /\ errMsgs = List.map (fun f => mkViolation f (Rules.fieldValue c f))
                                 (Rules.brokenFields c)
           /\ forall f, Rules.ruleBroken f (Rules.fieldValue c f) = true <->
                        In (mkViolation f (Rules.fieldValue c f)) errMsgs
     end.
Proof.
  destruct cfg as [c|]; cbn [Rules.invalidConfig]; [|intros _; now split].
  intros [f Hf]. unfold Registry.SetGatherConfig.
  assert (Hin : In f (Rules.brokenFields c)) by now apply brokenFields_complete.
  rewrite violations_spec.
  assert (Hlen : (0 <? Z.of_nat (length (List.map
             (fun f1 => mkViolation f1 (Rules.fieldValue c f1))
             (Rules.brokenFields c)))) = true).
  { apply Z.ltb_lt. rewrite length_map.
    destruct (Rules.brokenFields c); [destruct Hin|cbn [length]; lia]. }
  rewrite Hlen. cbn [fst snd]. split; [reflexivity|].
  eexists. split; [reflexivity|]. split; [reflexivity|].
  intros g. rewrite <- brokenFields_complete.
  rewrite in_map_iff. split.
  - intros Hg. now exists g.
  - intros [g' [Heq Hg']]. now inversion Heq; subst.
Qed.

Lemma SetGatherConfig_invalid_rejected_witness :
  Registry.SetGatherConfig (Some Rules.threeBroken) Registry.initState =
  (Panicked (PanicInvalidConfig
     [mkViolation FMaxIdleConnsPerHost 0; mkViolation FIdleConnTimeout 0;
      mkViolation FDialTimeout (-1)]), Registry.initState).
Proof.
  assert (I : Rules.invalidConfig (Some Rules.threeBroken))
    by (exists FDialTimeout; reflexivity).
  destruct (SetGatherConfig_invalid_rejected (Some Rules.threeBroken)
              Registry.initState I) as [Hst [errs [Hfst [Herrs _]]]].
  rewrite (surjective_pairing (Registry.SetGatherConfig _ _)), Hst, Hfst, Herrs.
  reflexivity.
Defined.

(** ** The timeout derivation *)



(** ** Building a pool *)

Lemma adjustPoolSize_clamp (num maxPoolSize : Z) :
  1 <= maxPoolSize ->
  PoolM.adjustPoolSize num maxPoolSize = Shape.clamp num maxPoolSize.
Proof.
  intros H. unfold PoolM.adjustPoolSize, Shape.clamp.
  destruct (Z.leb_spec num 0); [lia|].
  destruct (Z.ltb_spec maxPoolSize num); lia.
Qed.

Lemma getValidatedConfig_MaxPoolSize (cfg : PoolM.PoolConfig) :
  1 <= PoolM.MaxPoolSize (PoolM.getValidatedConfig cfg).
Proof.
  unfold PoolM.getValidatedConfig. cbn [PoolM.MaxPoolSize].
  destruct (Z.leb_spec (PoolM.MaxPoolSize cfg) 0); cbn; lia.
Qed.
















(** ** The transport factories *)

Lemma NewGo_cached_hit (k : string) (a : nat) (st : NewGo.State) :
  k <> ""%string ->
  NewGo.transportProxyMap st !! k = Some a ->
  NewGo.getHttpTransport k st = (a, st).
Proof.
  intros Hk Ha. unfold NewGo.getHttpTransport.
  destruct (String.eqb_spec k ""); [contradiction|]. now rewrite Ha.
Qed.

Lemma NewGo_first_call_caches (k : string) (st : NewGo.State) :
  k <> ""%string ->
  NewGo.transportProxyMap (snd (NewGo.getHttpTransport k st)) !! k =
  Some (fst (NewGo.getHttpTransport k st)).
Proof.
  intros Hk. unfold NewGo.getHttpTransport.
  destruct (String.eqb_spec k ""); [contradiction|].
  destruct (NewGo.transportProxyMap st !! k) as [a|] eqn:E; cbn.
  - exact E.
  - apply lookup_insert_eq.
Qed.

(** A call of the factory leaves every cache entry and every stored
    transport in place. *)
Lemma NewGo_call_keeps (k' : string) (st : NewGo.State) :
  (forall k a, NewGo.transportProxyMap st !! k = Some a ->
               NewGo.transportProxyMap (snd (NewGo.getHttpTransport k' st)) !! k
               = Some a)
  /\ (forall b t, NewGo.transports st !! b = Some t ->
                  NewGo.transports (snd (NewGo.getHttpTransport k' st)) !! b
                  = Some t).
Proof.
  unfold NewGo.getHttpTransport.
  destruct (String.eqb k' "").
  - destruct (NewGo.transportNoProxy st); cbn; split; auto.
    intros b t Hb. now apply lookup_app_l_Some.
  - destruct (NewGo.transportProxyMap st !! k') as [a'|] eqn:E; cbn;
      split; auto.
    + intros k a Ha. destruct (decide (k' = k)) as [->|Hne].
      * congruence.
      * now rewrite lookup_insert_ne.
    + intros b t Hb. now apply lookup_app_l_Some.
Qed.

Lemma NewGo_calls_keep (ks : list string) :
  forall st : NewGo.State,
    (forall k a, NewGo.transportProxyMap st !! k = Some a ->
                 NewGo.transportProxyMap (NewGo.calls ks st) !! k = Some a)
    /\ (forall b t, NewGo.transports st !! b = Some t ->
                    NewGo.transports (NewGo.calls ks st) !! b = Some t).
Proof.
  induction ks as [|k' ks IH]; intros st; cbn; [split; auto|].
  destruct (NewGo_call_keeps k' st) as [Hm Ht].
  destruct (IH (snd (NewGo.getHttpTransport k' st))) as [Hm' Ht'].
  split; eauto.
Qed.

(** C6, as the code has it. The caching factory (new.go) builds the
    transport of a non-empty proxy address on the first call: when the
    address is not in the cache, the call appends to the store one transport
    made from the package variables with that address as its proxy, enters
    its address in the cache under the proxy address and returns it. Every
    later call with the address returns that same transport, without
    building anything, whatever other calls came between, and the transport
    is still the one that was built. A call with an address already in the
    cache returns the cached transport and changes nothing. The factory of the
    configuration registry keeps no such cache: with a non-empty proxy
    address every call builds a new transport, and only the no-proxy
    singleton is reused. *)
Theorem proxy_transport_reuse_by_factory :
  (forall (st : NewGo.State) (k : string) (between : list string),
      k <> ""%string ->
      let first := NewGo.getHttpTransport k st in
      let later := NewGo.calls between (snd first) in
      NewGo.getHttpTransport k later = (fst first, later)
      /\ (forall t, NewGo.transports (snd first) !! fst first = Some t ->
                    NewGo.transports later !! fst first = Some t)
      /\ (length (NewGo.transports (snd first))
          <= S (length (NewGo.transports st)))%nat
      /\ (forall a, NewGo.transportProxyMap st !! k = Some a -> first = (a, st))
      /\ (NewGo.transportProxyMap st !! k = None ->
          let a := length (NewGo.transports st) in
          let t :=
            NewGo.withPerHost
              (NewGo.withProxy (NewGo.newBaseTransport (NewGo.vars st))
                 (NewGo.ProxyParse k))
              (Z.max (GoNum.scale (NewGo.MaxIdleConns (NewGo.vars st))
                        (NewGo.MaxIdleConnsPerHostWithProxy (NewGo.vars st))) 1) in
          fst first = a
          /\ NewGo.transports (snd first) = NewGo.transports st ++ [t]
          /\ NewGo.transportProxyMap (snd first) =
               <[k := a]> (NewGo.transportProxyMap st)
          /\ NewGo.transports (snd first) !! a = Some t
          /\ NewGo.transports later !! a = Some t))
  /\ (forall (st : Registry.State) (c : Registry.GatherConfig) (k : string),
         k <> ""%string ->
         Registry.globalConfig st = Some c ->
         exists st1 st2,
           Registry.getHttpTransport k st =
             (Returned (length (Registry.transports st)), st1)
           /\ Registry.getHttpTransport k st1 =
                (Returned (S (length (Registry.transports st))), st2))
  /\ (forall (st : Registry.State) (c : Registry.GatherConfig),
         Registry.globalConfig st = Some c ->
         exists a st1,
           Registry.getHttpTransport "" st = (Returned a, st1)
           /\ Registry.getHttpTransport "" st1 = (Returned a, st1)).
Proof.
  split; [|split].
  - intros st k between Hk first later.
    destruct (NewGo_calls_keep between (snd first)) as [Hm Ht].
    split; [|split; [|split; [|split]]].
    + apply NewGo_cached_hit; [exact Hk|]. apply Hm.
      now apply NewGo_first_call_caches.
    + intros t. apply Ht.
    + subst first. unfold NewGo.getHttpTransport.
      destruct (String.eqb k "").
      * destruct (NewGo.transportNoProxy st); cbn; [lia|].
        rewrite length_app. cbn. lia.
      * destruct (NewGo.transportProxyMap st !! k); cbn; [lia|].
        rewrite length_app. cbn. lia.
    + intros a Ha. subst first. now apply NewGo_cached_hit.
    + intros Hnew a t.
      assert (Hfirst : first =
                (a, {| NewGo.vars := NewGo.vars st;
                       NewGo.transportNoProxy := NewGo.transportNoProxy st;
                       NewGo.transportProxyMap :=
                         <[k := a]> (NewGo.transportProxyMap st);
                       NewGo.transports := NewGo.transports st ++ [t];
                       NewGo.logged := NewGo.logged st |})).
      { subst first. unfold NewGo.getHttpTransport.
        destruct (String.eqb_spec k ""); [contradiction|].
        rewrite Hnew. reflexivity. }
      assert (Hat : NewGo.transports (snd first) !! a = Some t).
      { rewrite Hfirst. cbn [snd NewGo.transports].
        apply list_lookup_middle. reflexivity. }
      rewrite Hfirst at 1 2 3. cbn [fst snd NewGo.transports NewGo.transportProxyMap].
      split; [reflexivity|]. split; [reflexivity|]. split; [reflexivity|].
      split; [exact Hat|]. apply Ht. exact Hat.
  - intros st c k Hk Hc. unfold Registry.getHttpTransport.
    destruct (String.eqb_spec k ""); [contradiction|].
    rewrite Hc. cbn [Registry.newTransport]. eexists _, _.
    split; [reflexivity|]. cbn [Registry.globalConfig]. rewrite Hc.
    cbn [Registry.newTransport Registry.transports].
    rewrite length_app. cbn [length].
    replace (length (Registry.transports st) + 1)%nat
      with (S (length (Registry.transports st))) by lia.
    reflexivity.
  - intros st c Hc. unfold Registry.getHttpTransport. rewrite Hc. cbn.
    destruct (Registry.transportNoProxy st) as [a|] eqn:E.
    + exists a, st. rewrite E. now split.
    + eexists _, _. split; reflexivity.
Qed.

Lemma proxy_transport_reuse_by_factory_witness :
  NewGo.getHttpTransport "http://10.0.0.1:8080"
    (NewGo.calls ["http://10.0.0.2:8080"; ""]
       (snd (NewGo.getHttpTransport "http://10.0.0.1:8080" NewGo.initState)))
  = (0%nat,
     NewGo.calls ["http://10.0.0.2:8080"; ""]
       (snd (NewGo.getHttpTransport "http://10.0.0.1:8080" NewGo.initState)))
  /\ NewGo.tProxy <$>
       NewGo.transports
         (NewGo.calls ["http://10.0.0.2:8080"; ""]
            (snd (NewGo.getHttpTransport "http://10.0.0.1:8080" NewGo.initState)))
       !! 0%nat
     = Some (NewGo.ProxyParse "http://10.0.0.1:8080").
Proof.
  destruct proxy_transport_reuse_by_factory as [H _].
  destruct (H NewGo.initState "http://10.0.0.1:8080"%string
              ["http://10.0.0.2:8080"; ""]%string ltac:(discriminate))
    as (Hsame & _ & _ & _ & Hbuilt).
  destruct (Hbuilt eq_refl) as (_ & _ & _ & _ & Hlater).
  split; [exact Hsame|].
  cbn [NewGo.initState NewGo.transports length] in Hlater.
  rewrite Hlater. reflexivity.
Defined.

(** C6 fails on the factory of the configuration registry: two calls with
    the same non-empty proxy address, one after the other, return two
    different transports. *)
Lemma registry_proxy_transport_not_cached :
  fst (Registry.getHttpTransport "http://10.0.0.1:8080" Registry.initState)
    = Returned 0%nat
  /\ fst (Registry.getHttpTransport "http://10.0.0.1:8080"
            (snd (Registry.getHttpTransport "http://10.0.0.1:8080"
                    Registry.initState)))
     = Returned 1%nat.
Proof. vm_compute. split; reflexivity. Qed.

(** ** The authenticated-proxy path *)

(** C8, as the code has it. In the caching factory, a proxy URL that does
    not parse gives no transport: [getHttpTransportHasPass] returns nil and
    writes the failure to the log, and [NewGatherUtilHasPass] returns, with
    no error value, an instance whose client has neither transport nor
    cookie jar, and logs that it did so. A proxy URL that parses gives an
    instance whose client has a transport and the jar; so a nil transport
    in the returned client is the one trace of the failure. *)
Theorem auth_proxy_parse_failure_falls_back
    (urlParse : string -> option GoStr.URL) (headers : gmap string string)
    (proxyURL user pass : string) (timeOut : Z) (isCookieLogOpen : bool)
    (st : NewGo.State) :
  (urlParse (GoStr.withScheme proxyURL) = None ->
   NewGo.getHttpTransportHasPass urlParse proxyURL user pass st =
     (None, NewGo.log (NewGo.LogParseAuthProxyFailed (GoStr.withScheme proxyURL)) st)
   /\ exists g,
       NewGo.NewGatherUtilHasPass urlParse headers proxyURL user pass timeOut
         isCookieLogOpen st =
         (g, NewGo.log NewGo.LogUseBasicClient
               (NewGo.log (NewGo.LogParseAuthProxyFailed
                             (GoStr.withScheme proxyURL)) st))
       /\ Client g = Some (mkClient None None (NewGo.clientTimeout timeOut)))
  /\ (forall u, urlParse (GoStr.withScheme proxyURL) = Some u ->
      exists g st',
        NewGo.NewGatherUtilHasPass urlParse headers proxyURL user pass timeOut
          isCookieLogOpen st = (g, st')
        /\ NewGo.logged st' = NewGo.logged st
        /\ Client g = Some (mkClient (Some (length (NewGo.transports st)))
                                     (Some (newWebCookieJar isCookieLogOpen))
                                     (NewGo.clientTimeout timeOut))).
Proof.
  unfold NewGo.NewGatherUtilHasPass, NewGo.getHttpTransportHasPass,
    NewGo.parseProxyURLWithAuth, GoStr.withScheme.
  split.
  - intros ->. split; [reflexivity|]. eexists. split; reflexivity.
  - intros u ->.
    destruct (GoStr.nonEmpty user && GoStr.nonEmpty pass);
      eexists _, _; (split; [reflexivity|]); split; reflexivity.
Qed.

Lemma auth_proxy_parse_failure_falls_back_witness :
  Client (fst (NewGo.NewGatherUtilHasPass (GoStr.url_Parse GoStr.acceptAll)
                 ∅ GoStr.proxyWithNewline "user" "secret" 60 false
                 NewGo.initState))
  = Some (mkClient None None (60 * GoNum.Second)).
Proof.
  destruct (auth_proxy_parse_failure_falls_back
              (GoStr.url_Parse GoStr.acceptAll) ∅ GoStr.proxyWithNewline
              "user" "secret" 60 false NewGo.initState) as [H _].
  destruct (H ltac:(reflexivity)) as [_ [g [Hrun Hc]]].
  rewrite Hrun. exact Hc.
Defined.

(** C8 fails on both authenticated-proxy paths at a proxy address that
    ends in a line feed, which [url.Parse] rejects: the constructor of the
    caching factory returns an instance as it does on success, with a
    client that has no proxy transport; the constructor of the registry
    factory, given no credentials, returns an instance whose transport was
    built from the nil URL and so uses no proxy. Neither reports anything
    to its caller. *)
Lemma auth_proxy_parse_failure_not_reported :
  GoStr.url_Parse GoStr.acceptAll (GoStr.withScheme GoStr.proxyWithNewline) = None
  /\ Client (fst (NewGo.NewGatherUtilHasPass (GoStr.url_Parse GoStr.acceptAll)
                    ∅ GoStr.proxyWithNewline "user" "secret" 60 false
                    NewGo.initState))
     = Some (mkClient None None (60 * GoNum.Second))
  /\ (exists g st',
        Registry.NewGatherUtilHasPass (GoStr.url_Parse GoStr.acceptAll)
          ∅ GoStr.proxyWithNewline "" "" 60 false Registry.initState
        = (Returned g, st')
        /\ Shape.usesTransport g 0
        /\ Registry.tProxy <$> Registry.transports st' !! 0%nat
           = Some (Registry.ProxyFixed None)).
Proof.
  split; [reflexivity|]. split.
  - reflexivity.
  - eexists _, _. split; [reflexivity|]. split.
    + eexists. split; reflexivity.
    + reflexivity.
Qed.

(** ** gzip detection *)

(** [Ungzip] of util.go: input without the two signature bytes, the empty
    input included, comes back unchanged and without error; any other
    result without error is the inflated stream. *)
Lemma Ungzip_signature_decides (headerRest : list byte -> option GzErr)
    (readAll : list byte -> GzErr + list byte) (data : list byte) :
  (Gzip.signed data = false ->
   Gzip.Ungzip headerRest readAll data = (data, None))
  /\ (forall out,
        Gzip.Ungzip headerRest readAll data = (out, None) ->
        Gzip.signed data = true ->
        exists reader,
          Gzip.gzip_NewReader headerRest data = inr reader
          /\ readAll reader = inr out).
Proof.
  split.
  - unfold Gzip.Ungzip, Gzip.signed.
    destruct data as [|b0 [|b1 rest]]; try reflexivity.
    cbn [length Nat.eqb Nat.ltb Nat.leb Gzip.byteAt nth orb andb].
    destruct (Byte.eqb b0 x1f), (Byte.eqb b1 x8b); cbn; congruence.
  - intros out H Hs. unfold Gzip.signed in Hs.
    apply andb_prop in Hs as [Hs H1]. apply andb_prop in Hs as [Hlen H0].
    apply Nat.leb_le in Hlen. unfold Gzip.Ungzip in H.
    destruct (Nat.eqb_spec (length data) 0) as [|_]; [lia|].
    destruct (Nat.ltb_spec (length data) 2) as [|_]; [lia|].
    rewrite H0, H1 in H. cbn [negb orb] in H.
    destruct (Gzip.gzip_NewReader headerRest data) as [e|reader];
      [discriminate|].
    destruct (readAll reader) as [e|o] eqn:E; [discriminate|].
    inversion H; subst. now exists reader.
Qed.

(** [Ungzip] of the other revision on any input of one to nine bytes. *)
Lemma Ungzip_byError_short (headerRest : list byte -> option GzErr)
    (readAll : list byte -> GzErr + list byte) (data : list byte) :
  (0 < length data < 10)%nat ->
  Gzip.Ungzip_byError headerRest readAll data =
  ([], Some (ErrWrap WrapGzipFailed (ErrGz GzUnexpectedEOF))).
Proof.
  intros H. unfold Gzip.Ungzip_byError, Gzip.gzip_NewReader.
  destruct (Nat.eqb_spec (length data) 0); [lia|].
  destruct (Nat.ltb_spec (length data) 10); [|lia].
  reflexivity.
Qed.

(** C9 at the five bytes of "hello", which carry no gzip signature: the
    [Ungzip] that decides by the error text of [gzip.NewReader] returns the
    empty string with an error, where the claim, the comment of that
    function and the [Ungzip] of util.go return the input with no error. *)
Theorem Ungzip_byError_loses_short_plain_text
    (headerRest : list byte -> option GzErr)
    (readAll : list byte -> GzErr + list byte) :
  Gzip.signed Gzip.hello = false
  /\ Gzip.Ungzip_byError headerRest readAll Gzip.hello =
       ([], Some (ErrWrap WrapGzipFailed (ErrGz GzUnexpectedEOF)))
  /\ Gzip.Ungzip headerRest readAll Gzip.hello = (Gzip.hello, None).
Proof. repeat split. Qed.

(** ** The header store of an instance *)



Section HeaderStore.
Variable urlParse : string -> option GoStr.URL.
Variable CanonicalMIMEHeaderKey : string -> string.
Variable clientDo : HttpClient -> Request -> GoError + Response.
Variable headerRest : list byte -> option GzErr.
Variable readAll : list byte -> GzErr + list byte.
Variable formEncode : gmap string string -> list byte.
Variable multipartBuild :
  string -> gmap string string -> gmap string Exchange.MultipartPostFile ->
  GoError + (list byte * string).

End HeaderStore.


(** ** Exchanges on the pool *)

Lemma count_nil (f : PoolM.PoolOp * PoolM.PC -> bool) : PoolM.count f [] = 0%nat.
Proof. reflexivity. Qed.






(** The shared parts a step never writes, and what it does to the permits. *)
Lemma delegate_frame (lib : Exchange.Library) (op : PoolM.PoolOp) (idx : Z)
    (p : PoolM.Pool) :
  PoolM.config (snd (PoolM.delegate lib op idx p)) = PoolM.config p
  /\ length (PoolM.pool (snd (PoolM.delegate lib op idx p))) = length (PoolM.pool p)
  /\ PoolM.sem (snd (PoolM.delegate lib op idx p)) = PoolM.sem p
  /\ PoolM.unUsed (snd (PoolM.delegate lib op idx p)) = PoolM.unUsed p.
Proof.
  unfold PoolM.delegate.
  destruct (if 0 <=? idx then PoolM.pool p !! Z.to_nat idx else None) as [g|];
    [|auto].
  destruct (PoolM.delegateOf lib op g) as [r g']. cbn.
  rewrite length_insert. auto.
Qed.

Lemma callerStep_frame (op : PoolM.PoolOp) (e : PoolM.Event)
    (p p' : PoolM.Pool) (c c' : PoolM.PC) :
  PoolM.callerStep op e p c = Some (p', c') ->
  PoolM.config p' = PoolM.config p
  /\ length (PoolM.pool p') = length (PoolM.pool p).
Proof.
  unfold PoolM.callerStep. intros H.
  destruct c, e; try discriminate; cbn in H;
    try (destruct (PoolM.delegate lib op idx p) as [r q] eqn:Ed;
         pose proof (delegate_frame lib op idx p) as Hd; rewrite Ed in Hd;
         cbn in Hd; injection H as <- <-; tauto);
    repeat match type of H with
           | context [match ?x with _ => _ end] => destruct x; try discriminate
           end;
    inversion H; subst; split; reflexivity.
Qed.









Lemma initFastConfig_panics (timeOut : Z) (st : Registry.State) :
  GoNum.seconds timeOut <= 0 ->
  PoolM.initFastConfigByTimeout timeOut st = (Panicked PanicTotalTimeout, st).
Proof.
  intros H. unfold PoolM.initFastConfigByTimeout,
    Registry.SetGatherConfigByClientTimeout.
  now replace (GoNum.seconds timeOut <=? 0) with true
    by (symmetry; apply Z.leb_le; lia).
Qed.




(** C1 at a pool of one instance built without semaphore, with two callers
    of Get: both scans are called back with index 0 before either caller
    deletes it, and both callers then hold the one instance, where the claim
    allows one. The scan and the Delete of [getPoolIndex] are two actions,
    and without the semaphore nothing else bounds the callers. *)
Theorem unsynchronised_scan_leases_one_instance_twice :
  match PoolM.noSemPool with
  | Returned p =>
      length (PoolM.pool p) = 1%nat
      /\ PoolM.IsUseSemaphore (PoolM.config p) = false
      /\ PoolM.leasedCount <$> PoolM.run PoolM.raceTrace
                                (PoolM.initial p PoolM.twoGets) = Some 2%nat
  | Panicked _ => False
  end.
Proof. vm_compute. auto. Qed.

(** One caller alone on the default pool of two instances: it gets the
    reply of its instance and leaves the bookkeeping as it found it. *)
Example solo_get_on_default_pool :
  (fun s => (PoolM.callers s, PoolM.unUsed (PoolM.shared s),
             PoolM.sem (PoolM.shared s)))
    <$> PoolM.run PoolM.soloTrace
          (PoolM.initial (PoolM.poolOf PoolM.defaultPool)
             [PoolM.OpGet "http://127.0.0.1/get" ""])
  = Some ([(PoolM.OpGet "http://127.0.0.1/get" "", PoolM.Done PoolM.okReply)],
          PoolM.unUsed (PoolM.poolOf PoolM.defaultPool), Some 2%nat).
Proof. vm_compute. reflexivity. Qed.

(** The same two actions of the scan let two callers of a pool with
    semaphore lease the same instance of a pool of two: the semaphore
    bounds how many callers hold a lease, not who holds which instance. *)
Example semaphore_does_not_make_leases_exclusive :
  PoolM.callers <$> PoolM.run PoolM.sharedLeaseTrace
                      (PoolM.initial (PoolM.poolOf PoolM.defaultPool) PoolM.twoGets)
  = Some [(PoolM.OpGet "http://127.0.0.1/get" "", PoolM.Delegating 0);
          (PoolM.OpGet "http://127.0.0.1/get" "", PoolM.Delegating 0)].
Proof. vm_compute. reflexivity. Qed.









(** ** Quoting of multipart header parameters *)

Section QuoteProperties.
Import Utf8 Quote.

Lemma code_range c : 0 <= code c < 256.
Proof.
  unfold code. pose proof (nat_ascii_bounded c). lia.
Qed.

Lemma code_chr z : 0 <= z < 256 -> code (chr z) = z.
Proof.
  intros H. unfold code, chr. rewrite nat_ascii_embedding; lia.
Qed.

Lemma chr_code c : chr (code c) = c.
Proof.
  unfold code, chr. rewrite Nat2Z.id. apply ascii_nat_embedding.
Qed.

Lemma high_plain z : 128 <= z < 256 -> plain (chr z).
Proof.
  intros H. unfold plain, special. rewrite code_chr by lia.
  repeat (apply orb_false_intro); apply Z.eqb_neq; lia.
Qed.

Lemma AppendRune_plain r : special r = false -> Forall plain (AppendRune r).
Proof.
  intros Hs. unfold AppendRune, inRange.
  repeat match goal with
  | |- context [if ?b then _ else _] => destruct b eqn:?
  end; cbn [map];
  repeat match goal with
  | H : (_ && _) = true |- _ => apply andb_prop in H; destruct H
  | H : (_ || _) = false |- _ => apply orb_false_elim in H; destruct H
  | H : (_ && _) = false |- _ => apply andb_false_iff in H
  | H : (_ <=? _) = true |- _ => apply Z.leb_le in H
  | H : (_ <=? _) = false |- _ => apply Z.leb_gt in H
  | H : (_ <? _) = true |- _ => apply Z.ltb_lt in H
  | H : (_ <? _) = false |- _ => apply Z.ltb_ge in H
  end;
  repeat constructor;
  try (apply high_plain; Z.div_mod_to_equations; lia).
  - unfold plain. rewrite code_chr by lia. exact Hs.
Qed.

Lemma special_low a : special a = true -> 0 <= a < 128.
Proof.
  unfold special. intros H.
  destruct (a =? 34) eqn:E1; [bools; lia|].
  destruct (a =? 13) eqn:E2; [bools; lia|].
  destruct (a =? 10) eqn:E3; [bools; lia|].
  destruct (a =? 92) eqn:E4; [bools; lia|]. discriminate.
Qed.

Lemma DecodeRune_low c rest :
  code c < 128 -> DecodeRune (c :: rest) = (code c, 1%nat).
Proof.
  intros H. cbn [DecodeRune]. apply Z.ltb_lt in H. rewrite H. reflexivity.
Qed.

Lemma leading_range b0 sz lo hi :
  leading b0 = Some (sz, lo, hi) ->
  128 <= lo /\ hi <= 191 /\
  (sz = 2%nat /\ 194 <= b0 <= 223 \/
   sz = 3%nat /\ (b0 = 224 /\ lo = 160 \/ 225 <= b0 <= 236 \/
                  b0 = 237 /\ hi = 159 \/ 238 <= b0 <= 239) \/
   sz = 4%nat /\ (b0 = 240 /\ lo = 144 \/ 241 <= b0 <= 243 \/
                  b0 = 244 /\ hi = 143)).
Proof.
  unfold leading, inRange. intros H.
  repeat match type of H with
  | context [if ?b then _ else _] =>
      destruct b eqn:?; [injection H as <- <- <-; bools; lia|]
  end. discriminate.
Qed.

Lemma DecodeRune_high c rest r w :
  128 <= code c -> DecodeRune (c :: rest) = (r, w) ->
  128 <= r /\ Forall high (take (Nat.pred w) rest).
Proof.
  intros Hc. cbn [DecodeRune].
  destruct (code c <? 128) eqn:E; [bools; lia|].
  destruct (leading (code c)) as [[[sz lo] hi]|] eqn:L;
    [|intros [= <- <-]; cbn; split; [unfold RuneError; lia|constructor]].
  apply leading_range in L. destruct L as [Hlo [Hhi L]].
  destruct rest as [|c1 rest1];
    [intros [= <- <-]; cbn; split; [unfold RuneError; lia|constructor]|].
  unfold inRange.
  destruct (negb ((lo <=? code c1) && (code c1 <=? hi))) eqn:E1;
    [intros [= <- <-]; cbn; split; [unfold RuneError; lia|constructor]|].
  bools.
  assert (Hh1 : high c1) by (unfold high; lia).
  destruct (sz =? 2)%nat eqn:S2.
  { intros [= <- <-]. apply Nat.eqb_eq in S2. cbn.
    split; [|repeat constructor; exact Hh1].
    Z.div_mod_to_equations. lia. }
  destruct rest1 as [|c2 rest2];
    [intros [= <- <-]; cbn; split; [unfold RuneError; lia|constructor]|].
  destruct (negb ((128 <=? code c2) && (code c2 <=? 191))) eqn:E2;
    [intros [= <- <-]; cbn; split; [unfold RuneError; lia|constructor]|].
  bools.
  assert (Hh2 : high c2) by (unfold high; lia).
  destruct (sz =? 3)%nat eqn:S3.
  { intros [= <- <-]. apply Nat.eqb_eq in S3. cbn.
    split; [|repeat constructor; assumption].
    apply Nat.eqb_neq in S2.
    pose proof (code_range c). pose proof (code_range c1).
    Z.div_mod_to_equations. lia. }
  destruct rest2 as [|c3 rest3];
    [intros [= <- <-]; cbn; split; [unfold RuneError; lia|constructor]|].
  destruct (negb ((128 <=? code c3) && (code c3 <=? 191))) eqn:E3;
    [intros [= <- <-]; cbn; split; [unfold RuneError; lia|constructor]|].
  bools.
  assert (Hh3 : high c3) by (unfold high; lia).
  intros [= <- <-]. cbn. split; [|repeat constructor; assumption].
  apply Nat.eqb_neq in S2. apply Nat.eqb_neq in S3.
  pose proof (code_range c). pose proof (code_range c1).
  Z.div_mod_to_equations. lia.
Qed.

Lemma runes_low a : 0 <= a < 128 -> forall s k,
  Forall high (take k s) ->
  (In a (runes k s) <-> exists c, In c s /\ code c = a).
Proof.
  intros Ha. induction s as [|c rest IH]; intros k Hk.
  - cbn. split; [tauto|]. intros [c [[] _]].
  - destruct k as [|k].
    + cbn [runes]. destruct (DecodeRune (c :: rest)) as [r w] eqn:D.
      destruct (Z.lt_ge_cases (code c) 128) as [Hc|Hc].
      * rewrite DecodeRune_low in D by exact Hc. injection D as <- <-.
        cbn [Nat.pred In]. rewrite IH by (rewrite take_0; constructor).
        split.
        -- intros [E|[c' [Hin E]]]; [exists c|exists c']; cbn; auto.
        -- intros [c' [[->|Hin] E]]; [left|right; exists c']; auto.
      * apply DecodeRune_high in D; [|exact Hc]. destruct D as [Hr Hw].
        cbn [In]. rewrite IH by exact Hw.
        split.
        -- intros [E|[c' [Hin E]]]; [lia|exists c'; cbn; auto].
        -- intros [c' [[->|Hin] E]]; [lia|right; exists c'; auto].
    + cbn [runes]. cbn [take] in Hk. apply Forall_cons in Hk.
      destruct Hk as [Hc Hk]. unfold high in Hc.
      rewrite IH by exact Hk.
      split.
      * intros [c' [Hin E]]. exists c'. cbn; auto.
      * intros [c' [[->|Hin] E]]; [lia|exists c'; auto].
Qed.

Lemma needsEscape_bytes (s : list ascii) :
  existsb special (runes 0 s) = false <-> Forall plain s.
Proof.
  split.
  - intros H. apply Forall_forall. intros c Hc. unfold plain.
    destruct (special (code c)) eqn:E; [|reflexivity].
    assert (Hin : In (code c) (runes 0 s)).
    { apply runes_low; [apply special_low; exact E|rewrite take_0; constructor|].
      exists c. split; [apply list_elem_of_In; exact Hc|reflexivity]. }
    assert (Ht : existsb special (runes 0 s) = true)
      by (apply existsb_exists; exists (code c); auto).
    congruence.
  - intros H. destruct (existsb special (runes 0 s)) eqn:E; [|reflexivity].
    apply existsb_exists in E. destruct E as [a [Hin Ha]].
    apply runes_low in Hin;
      [|apply special_low; exact Ha|rewrite take_0; constructor].
    destruct Hin as [c [Hc <-]]. rewrite Forall_forall in H.
    apply list_elem_of_In in Hc. specialize (H c Hc). unfold plain in H. congruence.
Qed.

Lemma chr_inj_code c z : 0 <= z < 256 -> code c = z -> chr z = c.
Proof. intros _ <-. apply chr_code. Qed.

Lemma DecodeRune_AppendRune c rest r w :
  DecodeRune (c :: rest) = (r, w) ->
  ((r =? RuneError) && (w =? 1)%nat) = false ->
  AppendRune r = take w (c :: rest) /\ (1 <= w)%nat.
Proof.
  cbn [DecodeRune].
  pose proof (code_range c) as R0.
  destruct (code c <? 128) eqn:E.
  { intros [= <- <-] _. bools. split; [|lia].
    unfold AppendRune, inRange.
    replace ((0 <=? code c) && (code c <=? 127)) with true
      by (symmetry; apply andb_true_intro; split; apply Z.leb_le; lia).
    cbn. rewrite chr_code. rewrite take_0. reflexivity. }
  bools.
  destruct (leading (code c)) as [[[sz lo] hi]|] eqn:L;
    [|intros [= <- <-]; cbn; discriminate].
  apply leading_range in L. destruct L as [Hlo [Hhi L]].
  destruct rest as [|c1 rest1]; [intros [= <- <-]; cbn; discriminate|].
  unfold inRange.
  destruct (negb ((lo <=? code c1) && (code c1 <=? hi))) eqn:E1;
    [intros [= <- <-]; cbn; discriminate|].
  bools.
  destruct (sz =? 2)%nat eqn:S2.
  { intros [= <- <-] _. apply Nat.eqb_eq in S2. split; [|lia].
    cbn [take]. rewrite take_0.
    unfold AppendRune, inRange.
    set (r := code c mod 32 * 64 + code c1 mod 64).
    assert (Hr : 128 <= r <= 2047 /\ 192 + r / 64 = code c
                 /\ 128 + r mod 64 = code c1)
      by (subst r; Z.div_mod_to_equations; lia).
    destruct Hr as [Hr [Ha Hb]].
    replace ((0 <=? r) && (r <=? 127)) with false
      by (symmetry; apply andb_false_iff; right; apply Z.leb_gt; lia).
    replace ((0 <=? r) && (r <=? 2047)) with true
      by (symmetry; apply andb_true_intro; split; apply Z.leb_le; lia).
    cbn [map]. rewrite Ha, Hb, !chr_code. reflexivity. }
  apply Nat.eqb_neq in S2.
  destruct rest1 as [|c2 rest2]; [intros [= <- <-]; cbn; discriminate|].
  destruct (negb ((128 <=? code c2) && (code c2 <=? 191))) eqn:E2;
    [intros [= <- <-]; cbn; discriminate|].
  bools.
  destruct (sz =? 3)%nat eqn:S3.
  { intros [= <- <-] _. apply Nat.eqb_eq in S3. split; [|lia].
    cbn [take]. rewrite take_0.
    unfold AppendRune, inRange.
    set (r := code c mod 16 * 4096 + code c1 mod 64 * 64 + code c2 mod 64).
    assert (Hc : 224 <= code c <= 239) by lia.
    assert (Hr : 2048 <= r <= 65535 /\ 224 + r / 4096 = code c
                 /\ 128 + (r / 64) mod 64 = code c1
                 /\ 128 + r mod 64 = code c2)
      by (subst r; Z.div_mod_to_equations; lia).
    destruct Hr as [Hr [Ha [Hb Hd]]].
    assert (Hs : r < 55296 \/ 57343 < r)
      by (subst r; Z.div_mod_to_equations; lia).
    replace ((0 <=? r) && (r <=? 127)) with false
      by (symmetry; apply andb_false_iff; right; apply Z.leb_gt; lia).
    replace ((0 <=? r) && (r <=? 2047)) with false
      by (symmetry; apply andb_false_iff; right; apply Z.leb_gt; lia).
    replace ((r <? 0) || (1114111 <? r) || (55296 <=? r) && (r <=? 57343))
      with false
      by (symmetry; apply orb_false_intro;
          [apply orb_false_intro; apply Z.ltb_ge; lia
          |apply andb_false_iff; destruct Hs;
           [left; apply Z.leb_gt; lia|right; apply Z.leb_gt; lia]]).
    replace (r <=? 65535) with true by (symmetry; apply Z.leb_le; lia).
    cbn [map]. rewrite Ha, Hb, Hd, !chr_code. reflexivity. }
  apply Nat.eqb_neq in S3.
  destruct rest2 as [|c3 rest3]; [intros [= <- <-]; cbn; discriminate|].
  destruct (negb ((128 <=? code c3) && (code c3 <=? 191))) eqn:E3;
    [intros [= <- <-]; cbn; discriminate|].
  bools.
  intros [= <- <-] _. split; [|lia].
  cbn [take]. rewrite take_0.
  unfold AppendRune, inRange.
  set (r := code c mod 8 * 262144 + code c1 mod 64 * 4096
            + code c2 mod 64 * 64 + code c3 mod 64).
  assert (Hc : 240 <= code c <= 244) by lia.
  assert (Hr : 65536 <= r <= 1114111 /\ 240 + r / 262144 = code c
               /\ 128 + (r / 4096) mod 64 = code c1
               /\ 128 + (r / 64) mod 64 = code c2
               /\ 128 + r mod 64 = code c3)
    by (subst r; Z.div_mod_to_equations; lia).
  destruct Hr as [Hr [Ha [Hb [Hd He]]]].
  replace ((0 <=? r) && (r <=? 127)) with false
    by (symmetry; apply andb_false_iff; right; apply Z.leb_gt; lia).
  replace ((0 <=? r) && (r <=? 2047)) with false
    by (symmetry; apply andb_false_iff; right; apply Z.leb_gt; lia).
  replace ((r <? 0) || (1114111 <? r) || (55296 <=? r) && (r <=? 57343))
    with false
    by (symmetry; apply orb_false_intro;
        [apply orb_false_intro; apply Z.ltb_ge; lia
        |apply andb_false_iff; right; apply Z.leb_gt; lia]).
  replace (r <=? 65535) with false by (symmetry; apply Z.leb_gt; lia).
  cbn [map]. rewrite Ha, Hb, Hd, He, !chr_code. reflexivity.
Qed.

Lemma reencode s : forall k,
  ValidFrom k s = true -> flat_map AppendRune (runes k s) = drop k s.
Proof.
  induction s as [|c rest IH]; intros k H.
  - destruct k; reflexivity.
  - destruct k as [|k].
    + cbn [runes ValidFrom] in *.
      destruct (DecodeRune (c :: rest)) as [r w] eqn:D.
      apply andb_prop in H. destruct H as [Hv Hrest].
      apply negb_true_iff in Hv.
      destruct (DecodeRune_AppendRune _ _ _ _ D Hv) as [Ha Hw].
      cbn [flat_map]. rewrite Ha, (IH _ Hrest).
      destruct w as [|w]; [lia|]. cbn [Nat.pred take drop app].
      rewrite take_drop. reflexivity.
    + cbn [runes ValidFrom drop] in *. apply IH. exact H.
Qed.

Lemma plain_not_backslash c : plain c -> Ascii.eqb c backslash = false.
Proof.
  intros H. apply Ascii.eqb_neq. intros ->. vm_compute in H. discriminate.
Qed.

Lemma unescape_plain l rest :
  Forall plain l -> unescape (l ++ rest) = l ++ unescape rest.
Proof.
  induction 1 as [|c l Hc Hl IH]; [reflexivity|].
  cbn [app unescape]. rewrite (plain_not_backslash _ Hc), IH. reflexivity.
Qed.

Lemma unescape_escapeRune c rest :
  unescape (escapeRune c ++ rest) = AppendRune c ++ unescape rest.
Proof.
  unfold escapeRune.
  destruct (c =? 34) eqn:E1; [apply Z.eqb_eq in E1; subst; reflexivity|].
  destruct (c =? 92) eqn:E2; [apply Z.eqb_eq in E2; subst; reflexivity|].
  destruct (c =? 13) eqn:E3; [apply Z.eqb_eq in E3; subst; reflexivity|].
  destruct (c =? 10) eqn:E4; [apply Z.eqb_eq in E4; subst; reflexivity|].
  cbn [orb]. apply unescape_plain. apply AppendRune_plain.
  unfold special. rewrite E1, E2, E3, E4. reflexivity.
Qed.

Lemma unescape_body cs :
  unescape (flat_map escapeRune cs) = flat_map AppendRune cs.
Proof.
  induction cs as [|c cs IH]; [reflexivity|].
  cbn [flat_map]. rewrite unescape_escapeRune, IH. reflexivity.
Qed.

Lemma Escaped_app l1 l2 : Escaped l1 -> Escaped l2 -> Escaped (l1 ++ l2).
Proof.
  induction 1 as [|c rest Hc H1 IH|c rest Hc H1 IH]; intros H2; cbn [app].
  - exact H2.
  - apply Escaped_plain; auto.
  - apply Escaped_pair; auto.
Qed.

Lemma plain_Escaped l : Forall plain l -> Escaped l.
Proof. induction 1; constructor; auto. Qed.

Lemma escapeRune_Escaped c : Escaped (escapeRune c).
Proof.
  unfold escapeRune.
  destruct (c =? 34) eqn:E1.
  { apply Z.eqb_eq in E1; subst. apply Escaped_pair; [left; reflexivity|constructor]. }
  destruct (c =? 92) eqn:E2.
  { apply Z.eqb_eq in E2; subst. apply Escaped_pair; [right; left; reflexivity|constructor]. }
  cbn [orb].
  destruct (c =? 13) eqn:E3.
  { apply Escaped_pair; [right; right; left; reflexivity|constructor]. }
  destruct (c =? 10) eqn:E4.
  { apply Escaped_pair; [right; right; right; reflexivity|constructor]. }
  apply plain_Escaped, AppendRune_plain.
  unfold special. rewrite E1, E2, E3, E4. reflexivity.
Qed.

Lemma body_Escaped cs : Escaped (flat_map escapeRune cs).
Proof.
  induction cs as [|c cs IH]; [constructor|].
  cbn [flat_map]. apply Escaped_app; [apply escapeRune_Escaped|exact IH].
Qed.

Lemma plain_no_break c : plain c -> c <> CR /\ c <> LF.
Proof.
  intros H. split; intros ->; vm_compute in H; discriminate.
Qed.

Lemma Escaped_no_break l : Escaped l -> ~ In CR l /\ ~ In LF l.
Proof.
  induction 1 as [|c rest Hc _ [IH1 IH2]|c rest Hc _ [IH1 IH2]].
  - split; intros [].
  - destruct (plain_no_break _ Hc) as [N1 N2].
    split; intros [E|Hin]; auto.
  - assert (N : c <> CR /\ c <> LF)
      by (destruct Hc as [E|[E|[E|E]]]; subst c; split; intros E;
          vm_compute in E; discriminate).
    destruct N as [N1 N2].
    split; (intros [E|[E|Hin]]; [vm_compute in E; discriminate|auto|auto]).
Qed.

Lemma quote_cases s :
  quote s = String dquote (s ++ String dquote "")
            /\ Forall plain (list_ascii_of_string s)
  \/ quote s = String dquote
                 (string_of_list_ascii
                    (flat_map escapeRune (runes 0 (list_ascii_of_string s)))
                  ++ String dquote "")
     /\ ~ Forall plain (list_ascii_of_string s).
Proof.
  unfold quote.
  destruct (String.length s =? 0)%nat eqn:E.
  { apply Nat.eqb_eq in E. destruct s; [|discriminate]. left.
    split; [reflexivity|constructor]. }
  destruct (existsb special (runes 0 (list_ascii_of_string s))) eqn:X; cbn [negb].
  - right. split; [reflexivity|]. intros H. apply needsEscape_bytes in H. congruence.
  - left. split; [reflexivity|]. apply needsEscape_bytes. exact X.
Qed.

(** X1. A string none of whose bytes is a double quote, a backslash, a
    carriage return or a line feed is only put between two double quotes,
    byte for byte, whether or not it is well-formed UTF-8; the empty string
    gives the two quotes alone. *)
Theorem quote_plain_only_wrapped s :
  Forall plain (list_ascii_of_string s) ->
  quote s = String dquote (s ++ String dquote "").
Proof.
  intros H. destruct (quote_cases s) as [[E _]|[_ N]]; [exact E|contradiction].
Qed.

(** X2. Whatever the string, [quote] returns a double quote, a body and a
    double quote, and in the body each double quote, backslash, carriage
    return and line feed of the input has become a two-byte escape that
    starts with a backslash: no byte of the body closes the quotation or
    ends the line. *)
Theorem quote_well_formed s :
  exists body,
    quote s = String dquote (body ++ String dquote "")
    /\ Escaped (list_ascii_of_string body).
Proof.
  destruct (quote_cases s) as [[E P]|[E _]].
  - exists s. split; [exact E|apply plain_Escaped; exact P].
  - eexists. split; [exact E|].
    rewrite list_ascii_of_string_of_list_ascii. apply body_Escaped.
Qed.

(** X3. On well-formed UTF-8 nothing is lost: undoing the four escapes in
    the body of [quote s] gives s back, byte for byte. *)
Theorem quote_round_trip s :
  ValidFrom 0 (list_ascii_of_string s) = true ->
  exists body,
    quote s = String dquote (body ++ String dquote "")
    /\ unescape (list_ascii_of_string body) = list_ascii_of_string s.
Proof.
  intros V. destruct (quote_cases s) as [[E P]|[E _]].
  - exists s. split; [exact E|].
    rewrite <- (app_nil_r (list_ascii_of_string s)) at 1.
    rewrite unescape_plain by exact P. cbn. apply app_nil_r.
  - eexists. split; [exact E|].
    rewrite list_ascii_of_string_of_list_ascii, unescape_body.
    rewrite (reencode _ _ V). reflexivity.
Qed.

Lemma list_ascii_app (a b : string) :
  list_ascii_of_string (a ++ b)%string
  = list_ascii_of_string a ++ list_ascii_of_string b.
Proof.
  induction a as [|c a IH]; [reflexivity|].
  change (c :: list_ascii_of_string (a ++ b)%string
          = c :: (list_ascii_of_string a ++ list_ascii_of_string b)).
  now rewrite IH.
Qed.

Lemma quote_no_break s :
  ~ In CR (list_ascii_of_string (quote s))
  /\ ~ In LF (list_ascii_of_string (quote s)).
Proof.
  destruct (quote_well_formed s) as (body & E & HE). rewrite E.
  change (list_ascii_of_string (String dquote (body ++ String dquote "")))
    with (dquote :: list_ascii_of_string (body ++ String dquote "")%string).
  rewrite list_ascii_app.
  change (list_ascii_of_string (String dquote "")) with [dquote].
  destruct (Escaped_no_break _ HE) as [N1 N2].
  split; intros [H|H]; try (vm_compute in H; discriminate);
    apply in_app_or in H; destruct H as [H|[H|[]]]; auto;
    vm_compute in H; discriminate.
Qed.

(** X4. The Content-Disposition header that [PostMultipartFormDataUtil]
    writes for a file part holds no carriage return and no line feed,
    whatever the field name and the file name are. *)
Theorem contentDisposition_no_line_break (name fileName : string) :
  ~ In CR (list_ascii_of_string (contentDisposition name fileName))
  /\ ~ In LF (list_ascii_of_string (contentDisposition name fileName)).
Proof.
  unfold contentDisposition. rewrite !list_ascii_app.
  destruct (quote_no_break name) as [A1 A2].
  destruct (quote_no_break fileName) as [B1 B2].
  split; intros H;
    repeat (apply in_app_or in H; destruct H as [H|H]); auto;
    cbn in H; repeat (destruct H as [H|H]; [vm_compute in H; discriminate|]);
    exact H.
Qed.

Lemma quote_round_trip_witness :
  ValidFrom 0 (list_ascii_of_string sampleName) = true
  /\ exists body,
       quote sampleName = String dquote (body ++ String dquote "")
       /\ unescape (list_ascii_of_string body) = list_ascii_of_string sampleName.
Proof.
  split; [reflexivity|]. apply (quote_round_trip sampleName). reflexivity.
Defined.

Lemma quote_plain_only_wrapped_witness :
  Forall plain (list_ascii_of_string "report.pdf")
  /\ quote "report.pdf" = String dquote ("report.pdf" ++ String dquote "").
Proof.
  assert (H : Forall plain (list_ascii_of_string "report.pdf"))
    by (repeat constructor).
  split; [exact H|]. apply (quote_plain_only_wrapped "report.pdf" H).
Defined.

End QuoteProperties.

(** ** The pool: configuration and construction *)

(** X5. Whatever configuration is passed, the validated one has a timeout
    of at least a second, a retry interval between 10 and 1000
    milliseconds, a positive size limit and a per-host ratio that is
    neither at most 0 nor above 1; the connection count and the semaphore
    switch are taken over as given, and validating twice changes nothing
    more. *)
Theorem getValidatedConfig_postconditions (cfg : PoolM.PoolConfig) :
  let v := PoolM.getValidatedConfig cfg in
  1 <= PoolM.TimeoutSecond v
  /\ 10 <= PoolM.RetryIntervalMs v <= 1000
  /\ 1 <= PoolM.MaxPoolSize v
  /\ GoNum.f64le (PoolM.MaxIdleConnsPerHostRatio v) GoNum.f64_0 = false
  /\ GoNum.f64gt (PoolM.MaxIdleConnsPerHostRatio v) GoNum.f64_1 = false
  /\ PoolM.MaxIdleConns v = PoolM.MaxIdleConns cfg
  /\ PoolM.IsUseSemaphore v = PoolM.IsUseSemaphore cfg
  /\ PoolM.getValidatedConfig v = v.
Proof.
  destruct cfg as [m r t ri mp u].
  unfold PoolM.getValidatedConfig.
  cbn [PoolM.MaxIdleConns PoolM.MaxIdleConnsPerHostRatio PoolM.TimeoutSecond
       PoolM.RetryIntervalMs PoolM.MaxPoolSize PoolM.IsUseSemaphore
       PoolM.defaultPoolConfig].
  destruct (GoNum.f64le r GoNum.f64_0) eqn:R1;
    destruct (GoNum.f64gt r GoNum.f64_1) eqn:R2;
    destruct (Z.leb_spec t 0); destruct (Z.ltb_spec ri 10);
    destruct (Z.ltb_spec 1000 ri); destruct (Z.leb_spec mp 0);
    cbn [orb PoolM.MaxIdleConns PoolM.MaxIdleConnsPerHostRatio
         PoolM.TimeoutSecond PoolM.RetryIntervalMs PoolM.MaxPoolSize
         PoolM.IsUseSemaphore];
    rewrite ?R1, ?R2;
    repeat match goal with
    | |- context [?a <=? ?b] =>
        destruct (Z.leb_spec a b); try lia
    | |- context [?a <? ?b] =>
        destruct (Z.ltb_spec a b); try lia
    end;
    cbn [orb]; repeat split; try lia; try reflexivity.
Qed.

(** X6. The constructors of the second revision panic on a timeOut that
    is not a positive number of nanoseconds, 0 included, and leave the
    registry as it was. *)
Theorem pool_constructors_panic_without_timeout
    (headers : gmap string string) (proxyURL : string) (timeOut : Z)
    (isCookieLogOpen : bool) (num : Z) (cfg : PoolM.PoolConfig)
    (st : Registry.State) :
  GoNum.seconds timeOut <= 0 ->
  PoolM.NewGatherUtilPool headers proxyURL timeOut isCookieLogOpen num st
    = (Panicked PanicTotalTimeout, st)
  /\ PoolM.NewGatherUtilPoolWithConfig headers proxyURL timeOut
       isCookieLogOpen num cfg st = (Panicked PanicTotalTimeout, st).
Proof.
  intros H. unfold PoolM.NewGatherUtilPool, PoolM.NewGatherUtilPoolWithConfig.
  rewrite (initFastConfig_panics timeOut st H). split; reflexivity.
Qed.

Lemma pool_constructors_panic_without_timeout_witness :
  PoolM.NewGatherUtilPool ∅ "" 0 false 3 Registry.initState
    = (Panicked PanicTotalTimeout, Registry.initState)
  /\ PoolM.NewGatherUtilPoolWithConfig ∅ "" 0 false 3 PoolM.defaultPoolConfig
       Registry.initState = (Panicked PanicTotalTimeout, Registry.initState).
Proof.
  apply (pool_constructors_panic_without_timeout ∅ ""%string 0 false 3
           PoolM.defaultPoolConfig Registry.initState).
  vm_compute. discriminate.
Defined.

(** One instance more: the transport it gets, by the proxy address. *)
Lemma custom_instance_transport (c : Registry.GatherConfig)
    (headers : gmap string string) (proxyURL : string) (timeOut : Z)
    (isCookieLogOpen : bool) (m : Z) (cfg : PoolM.PoolConfig)
    (st : Registry.State) :
  Registry.globalConfig st = Some c ->
  exists ga st1 t,
    PoolM.newGatherUtilWithCustomConfig headers proxyURL timeOut
      isCookieLogOpen m cfg st = (Returned ga, st1)
    /\ Registry.globalConfig st1 = Some c
    /\ Shape.usesTransport ga t
    /\ (String.eqb proxyURL "" = true ->
        t = default (length (Registry.transports st)) (Registry.transportNoProxy st)
        /\ Registry.transportNoProxy st1 = Some t)
    /\ (String.eqb proxyURL "" = false ->
        t = length (Registry.transports st)
        /\ length (Registry.transports st1) = S (length (Registry.transports st))
        /\ Registry.transportNoProxy st1 = Registry.transportNoProxy st).
Proof.
  intros Hc.
  unfold PoolM.newGatherUtilWithCustomConfig, Registry.getHttpTransport.
  rewrite Hc. cbn [Registry.newTransport].
  destruct (String.eqb proxyURL "") eqn:E.
  - destruct (Registry.transportNoProxy st) as [a|] eqn:N.
    + eexists _, _, a. split; [reflexivity|]. cbn. rewrite N.
      split; [exact Hc|]. split; [eexists; split; reflexivity|].
      split; [auto|discriminate].
    + eexists _, _, (length (Registry.transports st)).
      split; [reflexivity|]. cbn.
      split; [exact Hc|]. split; [eexists; split; reflexivity|].
      split; [auto|discriminate].
  - eexists _, _, (length (Registry.transports st)).
    split; [reflexivity|]. cbn.
    split; [exact Hc|]. split; [eexists; split; reflexivity|].
    split; [discriminate|]. intros _. split; [reflexivity|].
    split; [|reflexivity].
    rewrite length_alter, length_app. cbn. lia.
Qed.

Lemma buildInstances_transports (c : Registry.GatherConfig)
    (headers : gmap string string) (proxyURL : string) (timeOut : Z)
    (isCookieLogOpen : bool) (m : Z) (cfg : PoolM.PoolConfig) (count : nat) :
  forall (i : Z) (gp : PoolM.Pool) (st : Registry.State),
    Registry.globalConfig st = Some c ->
    exists p st',
      PoolM.buildInstances count i headers proxyURL timeOut isCookieLogOpen
        m cfg gp st = (Returned p, st')
      /\ Registry.globalConfig st' = Some c
      /\ PoolM.config p = PoolM.config gp
      /\ length (PoolM.pool p) = (length (PoolM.pool gp) + count)%nat
      /\ (forall j g, PoolM.pool p !! (length (PoolM.pool gp) + j)%nat = Some g ->
            Shape.usesTransport g
              (if String.eqb proxyURL ""
               then default (length (Registry.transports st))
                            (Registry.transportNoProxy st)
               else (length (Registry.transports st) + j)%nat)).
Proof.
  induction count as [|k IH]; intros i gp st Hc.
  - exists gp, st. cbn [PoolM.buildInstances].
    split; [reflexivity|]. split; [exact Hc|]. split; [reflexivity|].
    split; [lia|]. intros j g Hl.
    apply lookup_lt_Some in Hl. lia.
  - cbn [PoolM.buildInstances].
    destruct (custom_instance_transport c headers proxyURL timeOut
                isCookieLogOpen m cfg st Hc)
      as (ga & st1 & t & Hrun & Hc1 & Hu & He & Hn).
    rewrite Hrun.
    set (gp1 := {| PoolM.unUsed := <[i:=true]> (PoolM.unUsed gp);
                   PoolM.pool := PoolM.pool gp ++ [ga];
                   PoolM.sem := PoolM.sem gp;
                   PoolM.config := PoolM.config gp |}).
    destruct (IH (i + 1) gp1 st1 Hc1) as (p & st' & Hb & Hc' & Hcfg & Hlen & Haddr).
    exists p, st'. split; [exact Hb|]. split; [exact Hc'|].
    split; [exact Hcfg|].
    assert (Hl1 : length (PoolM.pool gp1) = S (length (PoolM.pool gp)))
      by (subst gp1; cbn; rewrite length_app; cbn; lia).
    split; [lia|].
    assert (Hprefix : forall q x, PoolM.pool gp1 !! q = Some x ->
                                  PoolM.pool p !! q = Some x).
    { clear - Hb. revert Hb. generalize (i + 1) gp1 st1.
      induction k as [|k IHk]; intros i' gp' st'' Hb q x Hq.
      - cbn in Hb. injection Hb as <- <-. exact Hq.
      - cbn [PoolM.buildInstances] in Hb.
        destruct (PoolM.newGatherUtilWithCustomConfig headers proxyURL timeOut
                    isCookieLogOpen m cfg st'') as [[ga'|msg] st3];
          [|discriminate].
        eapply IHk; [exact Hb|]. cbn [PoolM.pool].
        apply lookup_app_l_Some. exact Hq. }
    intros j g Hl. destruct j as [|j].
    + assert (Hga : PoolM.pool p !! (length (PoolM.pool gp) + 0)%nat = Some ga).
      { apply Hprefix. subst gp1. cbn [PoolM.pool].
        apply list_lookup_middle. lia. }
      rewrite Hga in Hl. injection Hl as <-.
      destruct (String.eqb proxyURL "") eqn:E.
      * destruct (He eq_refl) as [-> _]. exact Hu.
      * destruct (Hn eq_refl) as [-> _].
        replace (length (Registry.transports st) + 0)%nat
          with (length (Registry.transports st)) by lia. exact Hu.
    + specialize (Haddr j g).
      rewrite Hl1 in Haddr.
      replace (S (length (PoolM.pool gp)) + j)%nat
        with (length (PoolM.pool gp) + S j)%nat in Haddr by lia.
      specialize (Haddr Hl).
      destruct (String.eqb proxyURL "") eqn:E.
      * destruct (He eq_refl) as [Ht Hnp]. rewrite Hnp in Haddr. cbn in Haddr.
        rewrite <- Ht. exact Haddr.
      * destruct (Hn eq_refl) as (_ & Hlen1 & _). rewrite Hlen1 in Haddr.
        replace (length (Registry.transports st) + S j)%nat
          with (S (length (Registry.transports st)) + j)%nat by lia.
        exact Haddr.
Qed.

Lemma buildPool_transports (c : Registry.GatherConfig)
    (headers : gmap string string) (proxyURL : string) (timeOut : Z)
    (isCookieLogOpen : bool) (num : Z) (cfg : PoolM.PoolConfig)
    (st : Registry.State) :
  Registry.globalConfig st = Some c ->
  exists p st',
    PoolM.buildPool headers proxyURL timeOut isCookieLogOpen num cfg st
      = (Returned p, st')
    /\ Registry.globalConfig st' = Some c
    /\ PoolM.config p = cfg
    /\ length (PoolM.pool p)
       = Z.to_nat (PoolM.adjustPoolSize num (PoolM.MaxPoolSize cfg))
    /\ (forall j g, PoolM.pool p !! j = Some g ->
          Shape.usesTransport g
            (if String.eqb proxyURL ""
             then default (length (Registry.transports st))
                          (Registry.transportNoProxy st)
             else (length (Registry.transports st) + j)%nat)).
Proof.
  intros Hc. unfold PoolM.buildPool.
  match goal with
  | |- context [PoolM.buildInstances ?n ?i _ _ _ _ ?m _ ?gp _] =>
      destruct (buildInstances_transports c headers proxyURL timeOut
                  isCookieLogOpen m cfg n i gp st Hc)
        as (p & st' & Hb & Hc' & Hcfg & Hlen & Haddr)
  end.
  exists p, st'. split; [exact Hb|]. split; [exact Hc'|].
  split; [exact Hcfg|]. split; [cbn in Hlen; lia|].
  intros j g Hl. apply (Haddr j g). exact Hl.
Qed.

(** X7. The constructors of the first revision do not touch the registry:
    with a configuration installed they return a pool for every timeOut,
    0 and negative numbers included, the global configuration is the same
    after the call, a list of configurations counts for its first entry
    only, and [NewGatherUtilPool] builds what [NewGatherUtilPoolWithConfig]
    builds when no configuration is passed. *)
Theorem first_revision_pool_keeps_registry_configuration
    (c : Registry.GatherConfig) (headers : gmap string string)
    (proxyURL : string) (timeOut : Z) (isCookieLogOpen : bool) (num : Z)
    (config : list PoolM.PoolConfig) (st : Registry.State) :
  Registry.globalConfig st = Some c ->
  (exists p st',
     PoolRev1.NewGatherUtilPoolWithConfig headers proxyURL timeOut
       isCookieLogOpen num config st = (Returned p, st')
     /\ Registry.globalConfig st' = Some c
     /\ PoolM.config p =
          match config with
          | [] => PoolM.defaultPoolConfig
          | cfg :: _ => PoolM.getValidatedConfig cfg
          end
     /\ Z.of_nat (length (PoolM.pool p)) =
          Z.min (Z.max num 1) (PoolM.MaxPoolSize (PoolM.config p)))
  /\ PoolRev1.NewGatherUtilPool headers proxyURL timeOut isCookieLogOpen num st
     = PoolRev1.NewGatherUtilPoolWithConfig headers proxyURL timeOut
         isCookieLogOpen num [] st.
Proof.
  intros Hc. split; [|reflexivity].
  unfold PoolRev1.NewGatherUtilPoolWithConfig.
  set (cfg := match config with
              | [] => PoolM.defaultPoolConfig
              | cfg :: _ => PoolM.getValidatedConfig cfg
              end).
  assert (Hmax : 1 <= PoolM.MaxPoolSize cfg).
  { subst cfg. destruct config as [|x xs]; [cbn; lia|].
    apply getValidatedConfig_MaxPoolSize. }
  destruct (buildPool_transports c headers proxyURL timeOut isCookieLogOpen
              num cfg st Hc) as (p & st' & Hb & Hc' & Hcfg & Hlen & _).
  exists p, st'. split; [exact Hb|]. split; [exact Hc'|].
  split; [exact Hcfg|]. rewrite Hcfg, Hlen.
  rewrite (adjustPoolSize_clamp num _ Hmax). unfold Shape.clamp. lia.
Qed.

Lemma first_revision_pool_keeps_registry_configuration_witness :
  exists p st',
    PoolRev1.NewGatherUtilPoolWithConfig ∅ "" 0 false 2 [] Registry.initState
      = (Returned p, st')
    /\ Registry.globalConfig st' = Registry.globalConfig Registry.initState
    /\ length (PoolM.pool p) = 2%nat.
Proof.
  destruct (Registry.globalConfig Registry.initState) as [c|] eqn:E;
    [|vm_compute in E; discriminate].
  destruct (first_revision_pool_keeps_registry_configuration c ∅ ""%string 0
              false 2 [] Registry.initState E)
    as [(p & st' & Hrun & Hc & Hcfg & Hlen) _].
  exists p, st'. split; [exact Hrun|]. split; [exact Hc|].
  rewrite Hcfg in Hlen. cbn in Hlen. lia.
Defined.



(** ** The pool: what every run does *)

Lemma callerStep_budget (op : PoolM.PoolOp) (e : PoolM.Event)
    (p p' : PoolM.Pool) (c c' : PoolM.PC) :
  PoolM.callerStep op e p c = Some (p', c') ->
  (PoolRun.budget (PoolM.config p) c' < PoolRun.budget (PoolM.config p) c)%nat.
Proof.
  intros H.
  assert (Hu : forall r, (PoolRun.budget (PoolM.config p)
                            (PoolM.unwindSem (PoolM.config p) r) <= 1)%nat).
  { intros r. unfold PoolM.unwindSem.
    destruct (PoolM.IsUseSemaphore (PoolM.config p)); cbn; lia. }
  assert (Hl : forall n, (PoolRun.budget (PoolM.config p)
                            (PoolM.loopHead (PoolM.config p) n)
                          <= 5 + Z.to_nat (PoolM.maxRetry (PoolM.config p) - n))%nat
                         /\ (PoolM.loopHead (PoolM.config p) n = PoolM.InLoop n ->
                             n < PoolM.maxRetry (PoolM.config p))).
  { intros n. unfold PoolM.loopHead.
    destruct (Z.ltb_spec n (PoolM.maxRetry (PoolM.config p))).
    - split; [cbn; lia|auto].
    - split; [specialize (Hu PoolM.noFreeReply); lia|].
      unfold PoolM.unwindSem.
      destruct (PoolM.IsUseSemaphore (PoolM.config p)); discriminate. }
  destruct c, e; cbn in H; try discriminate.
  - destruct (PoolM.sem p) as [[|k]|]; try discriminate.
    injection H as <- <-. destruct (Hl 0) as [Hb _]. cbn [PoolRun.budget].
    replace (PoolM.maxRetry (PoolM.config p) - 0)
      with (PoolM.maxRetry (PoolM.config p)) in Hb by lia. lia.
  - injection H as <- <-. cbn. lia.
  - injection H as <- <-. specialize (Hu PoolM.noFreeReply). cbn [PoolRun.budget]. lia.
  - destruct (bool_decide (PoolM.unUsed p !! idx = Some true)); [|discriminate].
    injection H as <- <-. cbn. lia.
  - injection H as <- <-. cbn [PoolRun.budget].
    destruct (Hl (num + 1)) as [Hb Hin].
    unfold PoolM.loopHead in *.
    destruct (Z.ltb_spec (num + 1) (PoolM.maxRetry (PoolM.config p))).
    + cbn [PoolRun.budget]. lia.
    + specialize (Hu PoolM.noFreeReply). lia.
  - injection H as <- <-. cbn. lia.
  - destruct (PoolM.delegate lib op idx p) as [r p0]. injection H as <- <-.
    cbn. lia.
  - injection H as <- <-. specialize (Hu r). cbn [PoolRun.budget]. lia.
  - destruct (PoolM.sem p) as [k|]; [|discriminate].
    match type of H with
    | context [if ?x then _ else _] => destruct x; [|discriminate]
    end.
    injection H as <- <-. cbn. lia.
Qed.

Lemma step_caller (i : nat) (ie : nat * PoolM.Event) (s s' : PoolM.System)
    (op : PoolM.PoolOp) (c : PoolM.PC) :
  PoolM.step ie s = Some s' ->
  PoolM.callers s !! i = Some (op, c) ->
  PoolM.config (PoolM.shared s') = PoolM.config (PoolM.shared s)
  /\ (ie.1 <> i -> PoolM.callers s' !! i = Some (op, c))
  /\ (ie.1 = i ->
      exists c', PoolM.callers s' !! i = Some (op, c')
                 /\ PoolM.callerStep op ie.2 (PoolM.shared s) c
                    = Some (PoolM.shared s', c')).
Proof.
  intros Hs Hi. unfold PoolM.step in Hs.
  destruct (PoolM.callers s !! ie.1) as [[opj cj]|] eqn:Ej; [|discriminate].
  destruct (PoolM.callerStep opj ie.2 (PoolM.shared s) cj) as [[p' c']|] eqn:Ec;
    [|discriminate].
  injection Hs as <-. cbn [PoolM.shared PoolM.callers].
  split; [apply (callerStep_frame _ _ _ _ _ _ Ec)|]. split.
  - intros Hne. rewrite list_lookup_insert_ne by exact Hne. exact Hi.
  - intros He. rewrite He in *. rewrite Hi in Ej. injection Ej as <- <-.
    exists c'. split; [|exact Ec].
    apply list_lookup_insert_eq. apply lookup_lt_Some in Hi. exact Hi.
Qed.

Lemma run_budget (trace : list (nat * PoolM.Event)) :
  forall (s s' : PoolM.System) (i : nat) (op : PoolM.PoolOp) (c : PoolM.PC),
    PoolM.run trace s = Some s' ->
    PoolM.callers s !! i = Some (op, c) ->
    exists c',
      PoolM.callers s' !! i = Some (op, c')
      /\ (PoolRun.actionsOf i trace
          + PoolRun.budget (PoolM.config (PoolM.shared s)) c'
          <= PoolRun.budget (PoolM.config (PoolM.shared s)) c)%nat.
Proof.
  induction trace as [|ie rest IH]; intros s s' i op c Hr Hi.
  - cbn in Hr. injection Hr as <-. exists c. split; [exact Hi|]. cbn. lia.
  - cbn [PoolM.run] in Hr.
    destruct (PoolM.step ie s) as [s1|] eqn:Es; [|discriminate].
    destruct (step_caller i ie s s1 op c Es Hi) as (Hcfg & Hne & Heq).
    unfold PoolRun.actionsOf.
    destruct (decide (ie.1 = i)) as [E|E].
    + destruct (Heq E) as (c1 & Hi1 & Hstep).
      destruct (IH s1 s' i op c1 Hr Hi1) as (c' & Hi' & Hb).
      exists c'. split; [exact Hi'|].
      rewrite filter_cons_True by exact E. cbn [length].
      rewrite Hcfg in Hb. unfold PoolRun.actionsOf in Hb.
      pose proof (callerStep_budget _ _ _ _ _ _ Hstep). lia.
    + destruct (IH s1 s' i op c Hr (Hne E)) as (c' & Hi' & Hb).
      exists c'. split; [exact Hi'|].
      rewrite filter_cons_False by exact E.
      rewrite Hcfg in Hb. exact Hb.
Qed.

(** X9. No operation on a pool goes on for ever: whatever the other
    callers do, a caller takes at most maxRetry + 6 actions, of which at
    most maxRetry are scans of [getPoolIndex], and it is still the same
    operation when the run ends. *)
Theorem caller_actions_bounded (p : PoolM.Pool) (ops : list PoolM.PoolOp)
    (trace : list (nat * PoolM.Event)) (s : PoolM.System) (i : nat)
    (op : PoolM.PoolOp) :
  PoolM.run trace (PoolM.initial p ops) = Some s ->
  ops !! i = Some op ->
  (PoolRun.actionsOf i trace
   <= 6 + Z.to_nat (PoolM.maxRetry (PoolM.config p)))%nat
  /\ exists c, PoolM.callers s !! i = Some (op, c).
Proof.
  intros Hr Hi.
  assert (Hs : PoolM.callers (PoolM.initial p ops) !! i
               = Some (op, PoolM.start (PoolM.config p))).
  { unfold PoolM.initial. cbn [PoolM.callers].
    rewrite list_lookup_fmap, Hi. reflexivity. }
  destruct (run_budget trace _ _ i op _ Hr Hs) as (c' & Hc' & Hb).
  split; [|exists c'; exact Hc'].
  cbn [PoolM.initial PoolM.shared] in Hb.
  assert (Hstart : (PoolRun.budget (PoolM.config p) (PoolM.start (PoolM.config p))
                    <= 6 + Z.to_nat (PoolM.maxRetry (PoolM.config p)))%nat).
  { unfold PoolM.start, PoolM.loopHead, PoolM.unwindSem.
    destruct (PoolM.IsUseSemaphore (PoolM.config p)); [cbn; lia|].
    destruct (0 <? PoolM.maxRetry (PoolM.config p)); cbn; [|lia].
    replace (PoolM.maxRetry (PoolM.config p) - 0)
      with (PoolM.maxRetry (PoolM.config p)) by lia. lia. }
  lia.
Qed.

Lemma caller_actions_bounded_witness :
  (PoolRun.actionsOf 0 PoolM.soloTrace <= 6 + 300)%nat.
Proof.
  assert (Hr : PoolM.run PoolM.soloTrace
                 (PoolM.initial (PoolM.poolOf PoolM.defaultPool)
                    [PoolM.OpGet "http://127.0.0.1/get" ""])
               = Some (default (PoolM.initial (PoolM.poolOf PoolM.defaultPool) [])
                         (PoolM.run PoolM.soloTrace
                            (PoolM.initial (PoolM.poolOf PoolM.defaultPool)
                               [PoolM.OpGet "http://127.0.0.1/get" ""]))))
    by (vm_compute; reflexivity).
  exact (proj1 (caller_actions_bounded _ _ _ _ 0%nat _ Hr eq_refl)).
Defined.





Lemma callerStep_reply (op : PoolM.PoolOp) (e : PoolM.Event)
    (p p' : PoolM.Pool) (c c' : PoolM.PC) (r : Outcome Reply) :
  PoolM.callerStep op e p c = Some (p', c') ->
  PoolRun.pendingReply c = Some r ->
  PoolRun.pendingReply c' = Some r.
Proof.
  intros H Hp.
  destruct c, e; cbn in H; try discriminate; cbn in Hp; try discriminate.
  - injection H as <- <-. injection Hp as <-.
    unfold PoolM.unwindSem. destruct (PoolM.IsUseSemaphore (PoolM.config p));
      reflexivity.
  - destruct (PoolM.sem p) as [k|]; [|discriminate].
    match type of H with
    | context [if ?x then _ else _] => destruct x; [|discriminate]
    end.
    injection H as <- <-. exact Hp.
Qed.

Lemma run_reply (trace : list (nat * PoolM.Event)) :
  forall (s s' : PoolM.System) (i : nat) (op : PoolM.PoolOp) (c : PoolM.PC)
         (r : Outcome Reply),
    PoolM.run trace s = Some s' ->
    PoolM.callers s !! i = Some (op, c) ->
    PoolRun.pendingReply c = Some r ->
    exists c', PoolM.callers s' !! i = Some (op, c')
               /\ PoolRun.pendingReply c' = Some r.
Proof.
  induction trace as [|ie rest IH]; intros s s' i op c r Hr Hi Hp.
  - cbn in Hr. injection Hr as <-. exists c. auto.
  - cbn [PoolM.run] in Hr.
    destruct (PoolM.step ie s) as [s1|] eqn:Es; [|discriminate].
    destruct (step_caller i ie s s1 op c Es Hi) as (_ & Hne & Heq).
    destruct (decide (ie.1 = i)) as [E|E].
    + destruct (Heq E) as (c1 & Hi1 & Hstep).
      eapply IH; [exact Hr|exact Hi1|].
      eapply callerStep_reply; eauto.
    + eapply IH; [exact Hr|exact (Hne E)|exact Hp].
Qed.

(** X11. What a pool operation returns is what the leased instance
    returned: from the moment the method of the instance at the leased
    index ends, whatever the other callers do afterwards, the caller
    returns the reply of that method on that instance ([GetUtil] with an
    empty cookie string for [Get], [Post] for [Post], and so on). *)
Theorem pool_returns_the_reply_of_the_instance
    (s1 s2 : PoolM.System) (rest : list (nat * PoolM.Event)) (i : nat)
    (op : PoolM.PoolOp) (idx : Z) (lib : Exchange.Library) (g : GatherStruct)
    (r : Outcome Reply) :
  PoolM.callers s1 !! i = Some (op, PoolM.Delegating idx) ->
  0 <= idx ->
  PoolM.pool (PoolM.shared s1) !! Z.to_nat idx = Some g ->
  PoolM.run ((i, PoolM.DelegateReturns lib) :: rest) s1 = Some s2 ->
  PoolM.callers s2 !! i = Some (op, PoolM.Done r) ->
  r = fst (PoolM.delegateOf lib op g).
Proof.
  intros Hi Hidx Hg Hr Hdone.
  cbn [PoolM.run] in Hr.
  destruct (PoolM.step (i, PoolM.DelegateReturns lib) s1) as [s'|] eqn:Es;
    [|discriminate].
  destruct (step_caller i _ s1 s' op _ Es Hi) as (_ & _ & Heq).
  destruct (Heq eq_refl) as (c1 & Hi1 & Hstep).
  cbn [snd PoolM.callerStep] in Hstep.
  unfold PoolM.delegate in Hstep.
  replace (0 <=? idx) with true in Hstep by (symmetry; apply Z.leb_le; lia).
  rewrite Hg in Hstep.
  destruct (PoolM.delegateOf lib op g) as [r0 g'] eqn:Ed.
  injection Hstep as _ <-.
  destruct (run_reply rest s' s2 i op _ r0 Hr Hi1 eq_refl) as (c' & Hc' & Hp).
  rewrite Hdone in Hc'. injection Hc' as <-. cbn in Hp.
  injection Hp as ->. reflexivity.
Qed.

Lemma pool_returns_the_reply_of_the_instance_witness :
  PoolM.okReply =
  fst (PoolM.delegateOf Exchange.exampleLibrary
         (PoolM.OpGet "http://127.0.0.1/get" "")
         (default Exchange.chromeInstance
            (PoolM.pool (PoolM.poolOf PoolM.defaultPool) !! 0%nat))).
Proof.
  apply (pool_returns_the_reply_of_the_instance
           (default (PoolM.initial (PoolM.poolOf PoolM.defaultPool) [])
              (PoolM.run (take 3 PoolM.soloTrace)
                 (PoolM.initial (PoolM.poolOf PoolM.defaultPool)
                    [PoolM.OpGet "http://127.0.0.1/get" ""])))
           (default (PoolM.initial (PoolM.poolOf PoolM.defaultPool) [])
              (PoolM.run PoolM.soloTrace
                 (PoolM.initial (PoolM.poolOf PoolM.defaultPool)
                    [PoolM.OpGet "http://127.0.0.1/get" ""])))
           [(0%nat, PoolM.StoreIdx); (0%nat, PoolM.SendPermit)] 0%nat
           (PoolM.OpGet "http://127.0.0.1/get" "") 0 Exchange.exampleLibrary).
  - vm_compute. reflexivity.
  - lia.
  - vm_compute. reflexivity.
  - vm_compute. reflexivity.
  - vm_compute. reflexivity.
Defined.






(** ** gzip detection and the reading of responses *)

(** X14. [Ungzip] of util.go fails only on data that carries the gzip
    signature, and then returns the empty string with the error of the
    gzip library; data without the signature, however short, comes back
    unchanged; and a result without error on signed data is the inflated
    stream. *)
Theorem Ungzip_errors_only_on_signed_data
    (headerRest : list byte -> option GzErr)
    (readAll : list byte -> GzErr + list byte) (data : list byte) :
  (Gzip.signed data = false ->
   Gzip.Ungzip headerRest readAll data = (data, None))
  /\ (forall out e,
        Gzip.Ungzip headerRest readAll data = (out, Some e) ->
        Gzip.signed data = true /\ out = [] /\ exists ge, e = ErrGz ge)
  /\ (forall out,
        Gzip.Ungzip headerRest readAll data = (out, None) ->
        Gzip.signed data = true ->
        exists reader,
          Gzip.gzip_NewReader headerRest data = inr reader
          /\ readAll reader = inr out).
Proof.
  destruct (Ungzip_signature_decides headerRest readAll data) as [Hu Hs].
  split; [exact Hu|]. split; [|exact Hs].
  intros out e H.
  destruct (Gzip.signed data) eqn:S.
  - split; [reflexivity|]. unfold Gzip.Ungzip in H.
    destruct (length data =? 0)%nat; [discriminate|].
    match type of H with
    | context [if ?b then _ else _] => destruct b; [discriminate|]
    end.
    destruct (Gzip.gzip_NewReader headerRest data) as [ge|reader].
    + injection H as <- <-. split; [reflexivity|]. exists ge. reflexivity.
    + destruct (readAll reader) as [ge|o].
      * injection H as <- <-. split; [reflexivity|]. exists ge. reflexivity.
      * discriminate.
  - rewrite (Hu eq_refl) in H. discriminate.
Qed.

(** X15. From ten bytes on the two revisions of [Ungzip] agree wherever
    the one of util.go succeeds: the other revision returns the same text,
    without error. *)
Theorem Ungzip_revisions_agree_from_ten_bytes
    (headerRest : list byte -> option GzErr)
    (readAll : list byte -> GzErr + list byte) (data out : list byte) :
  (10 <= length data)%nat ->
  Gzip.Ungzip headerRest readAll data = (out, None) ->
  Gzip.Ungzip_byError headerRest readAll data = (out, None).
Proof.
  intros Hlen H. unfold Gzip.Ungzip in H. unfold Gzip.Ungzip_byError.
  destruct (length data =? 0)%nat eqn:E0; [apply Nat.eqb_eq in E0; lia|].
  unfold Gzip.gzip_NewReader in *. rewrite E0 in *.
  replace (length data <? 10)%nat with false in *
    by (symmetry; apply Nat.ltb_ge; lia).
  replace (length data <? 2)%nat with false in H
    by (symmetry; apply Nat.ltb_ge; lia).
  cbn [orb] in H.
  destruct (Byte.eqb (Gzip.byteAt data 0) x1f);
    destruct (Byte.eqb (Gzip.byteAt data 1) x8b); cbn [negb orb andb] in *;
    try (injection H as <-; reflexivity).
  destruct (Byte.eqb (Gzip.byteAt data 2) x08); cbn [negb] in *;
    [|discriminate].
  destruct (headerRest data); [discriminate|].
  destruct (readAll data); [discriminate|]. exact H.
Qed.

Lemma Ungzip_revisions_agree_from_ten_bytes_witness :
  Gzip.Ungzip_byError (fun _ => None) (fun d => inr d) Fallback.tenBytes
  = (Fallback.tenBytes, None).
Proof.
  apply (Ungzip_revisions_agree_from_ten_bytes (fun _ => None) (fun d => inr d)
           Fallback.tenBytes Fallback.tenBytes).
  - vm_compute. lia.
  - reflexivity.
Defined.

Section Responses.
Variable clientDo : HttpClient -> Request -> GoError + Response.
Variable headerRest : list byte -> option GzErr.
Variable readAll : list byte -> GzErr + list byte.

(** X16. [request] of util.go never reports a failed decompression. For
    a 2xx response whose body could be read it returns no error and the
    final URL; the text is the body itself when the body does not carry
    the gzip signature, the inflated stream when it does and inflates, and
    the empty string, not the body, when it carries the signature and does
    not inflate. *)
Theorem request_drops_a_body_that_does_not_inflate
    (g : GatherStruct) (c : HttpClient) (req : Request) (resp : Response)
    (body : list byte) :
  Client g = Some c ->
  clientDo c req = inr resp ->
  200 <= StatusCode resp < 300 ->
  Body resp = inr body ->
  Exchange.request clientDo headerRest readAll g req =
  Returned
    (if Gzip.signed body
     then match Gzip.gzip_NewReader headerRest body with
          | inr reader =>
              match readAll reader with
              | inr out => out
              | inl _ => []
              end
          | inl _ => []
          end
     else body,
     FinalURL resp, None).
Proof.
  intros Hc Hdo Hst Hb. unfold Exchange.request. rewrite Hc, Hdo.
  replace ((StatusCode resp <? 200) || (300 <=? StatusCode resp)) with false
    by (symmetry; apply orb_false_intro; [apply Z.ltb_ge|apply Z.leb_gt]; lia).
  rewrite Hb. cbv zeta. f_equal. f_equal. f_equal.
  destruct (Gzip.signed body) eqn:S.
  - unfold Gzip.Ungzip. unfold Gzip.signed in S.
    apply andb_prop in S. destruct S as [S S3].
    apply andb_prop in S. destruct S as [S1 S2].
    apply Nat.leb_le in S1.
    replace (length body =? 0)%nat with false
      by (symmetry; apply Nat.eqb_neq; lia).
    replace (length body <? 2)%nat with false
      by (symmetry; apply Nat.ltb_ge; lia).
    rewrite S2, S3. cbn [negb orb].
    destruct (Gzip.gzip_NewReader headerRest body) as [e|reader];
      [reflexivity|].
    destruct (readAll reader); reflexivity.
  - destruct (Ungzip_signature_decides headerRest readAll body) as [Hu _].
    rewrite (Hu S). reflexivity.
Qed.

(** X17. [request] of the other revision never loses a body. For a 2xx
    response whose body could be read it returns no error and the final
    URL; the text is the inflated stream when the body is a gzip stream
    that inflates, and the body as it was read in every other case. *)
Theorem fallback_request_keeps_the_body
    (g : GatherStruct) (c : HttpClient) (req : Request) (resp : Response)
    (body : list byte) :
  Client g = Some c ->
  clientDo c req = inr resp ->
  200 <= StatusCode resp < 300 ->
  Body resp = inr body ->
  Fallback.request clientDo headerRest readAll g req =
  Returned
    (match Gzip.gzip_NewReader headerRest body with
     | inr reader =>
         match readAll reader with
         | inr out => out
         | inl _ => body
         end
     | inl _ => body
     end,
     FinalURL resp, None).
Proof.
  intros Hc Hdo Hst Hb. unfold Fallback.request. rewrite Hc, Hdo.
  replace ((StatusCode resp <? 200) || (300 <=? StatusCode resp)) with false
    by (symmetry; apply orb_false_intro; [apply Z.ltb_ge|apply Z.leb_gt]; lia).
  rewrite Hb. unfold Gzip.Ungzip_byError.
  destruct (length body =? 0)%nat eqn:E0.
  - apply Nat.eqb_eq in E0. destruct body; [|discriminate].
    unfold Gzip.gzip_NewReader. reflexivity.
  - destruct (Gzip.gzip_NewReader headerRest body) as [e|reader].
    + destruct (GoStr.Contains (Gzip.errorText e) "gzip: invalid header");
        reflexivity.
    + destruct (readAll reader); reflexivity.
Qed.

End Responses.

Lemma request_drops_a_body_that_does_not_inflate_witness :
  Exchange.request (Fallback.answers Fallback.signedStub) (fun _ => None)
    (fun d => inr d) Fallback.withClient
    (mkRequest "GET" "http://127.0.0.1/" ∅ None)
  = Returned ([], "http://127.0.0.1/"%string, None).
Proof.
  apply (request_drops_a_body_that_does_not_inflate
           (Fallback.answers Fallback.signedStub) (fun _ => None)
           (fun d => inr d) Fallback.withClient (mkClient None None 0)
           (mkRequest "GET" "http://127.0.0.1/" ∅ None)
           (mkResponse 200 (inr Fallback.signedStub) "http://127.0.0.1/")
           Fallback.signedStub).
  - reflexivity.
  - reflexivity.
  - cbn. lia.
  - reflexivity.
Defined.

Lemma fallback_request_keeps_the_body_witness :
  Fallback.request (Fallback.answers Fallback.signedStub) (fun _ => None)
    (fun d => inr d) Fallback.withClient
    (mkRequest "GET" "http://127.0.0.1/" ∅ None)
  = Returned (Fallback.signedStub, "http://127.0.0.1/"%string, None).
Proof.
  apply (fallback_request_keeps_the_body
           (Fallback.answers Fallback.signedStub) (fun _ => None)
           (fun d => inr d) Fallback.withClient (mkClient None None 0)
           (mkRequest "GET" "http://127.0.0.1/" ∅ None)
           (mkResponse 200 (inr Fallback.signedStub) "http://127.0.0.1/")
           Fallback.signedStub).
  - reflexivity.
  - reflexivity.
  - cbn. lia.
  - reflexivity.
Defined.

(** ** The operations of an instance *)

Section Operations.
Variable urlParse : string -> option GoStr.URL.
Variable CanonicalMIMEHeaderKey : string -> string.
Variable clientDo : HttpClient -> Request -> GoError + Response.
Variable headerRest : list byte -> option GzErr.
Variable readAll : list byte -> GzErr + list byte.
Variable formEncode : gmap string string -> list byte.
Variable multipartBuild :
  string -> gmap string string -> gmap string Exchange.MultipartPostFile ->
  GoError + (list byte * string).

Lemma request_bare (g : GatherStruct) (req : Request) :
  Fallback.bare (Exchange.request clientDo headerRest readAll g req).
Proof.
  intros html url e H. unfold Exchange.request in H.
  destruct (Client g) as [c|]; [|discriminate].
  destruct (clientDo c req) as [err|resp]; [injection H as <- <- _; auto|].
  destruct ((StatusCode resp <? 200) || (300 <=? StatusCode resp));
    [injection H as <- <- _; auto|].
  destruct (Body resp); [injection H as <- <- _; auto|discriminate].
Qed.

Lemma exchange_bare (g : GatherStruct) (r : Outcome (GoError + Request)) :
  Fallback.bare (fst (Exchange.exchange clientDo headerRest readAll g r)).
Proof.
  unfold Exchange.exchange. destruct r as [[err|req]|msg]; cbn [fst].
  - intros html url e H. injection H as <- <- _. auto.
  - apply request_bare.
  - intros html url e H. discriminate.
Qed.

(** X18. Whenever an operation of an instance returns an error, the text
    and the final URL it returns with it are empty: [GetUtil], [PostUtil],
    [PostBytes], [PostXMLUtil], [PostJsonUtil] and
    [PostMultipartFormDataUtil] never hand out part of a response together
    with an error. *)
Theorem operations_return_nothing_with_an_error (g : GatherStruct)
    (URL refererURL cookies boundary : string) (postMap : gmap string string)
    (body : list byte) (files : gmap string Exchange.MultipartPostFile) :
  Fallback.bare (fst (Exchange.GetUtil urlParse CanonicalMIMEHeaderKey clientDo
               headerRest readAll g URL refererURL cookies))
  /\ Fallback.bare (fst (Exchange.PostUtil urlParse CanonicalMIMEHeaderKey clientDo
                  headerRest readAll formEncode g URL refererURL cookies postMap))
  /\ Fallback.bare (fst (Exchange.PostBytes urlParse CanonicalMIMEHeaderKey clientDo
                  headerRest readAll g URL refererURL cookies body))
  /\ Fallback.bare (fst (Exchange.PostXMLUtil urlParse CanonicalMIMEHeaderKey clientDo
                  headerRest readAll g URL refererURL cookies body))
  /\ Fallback.bare (fst (Exchange.PostJsonUtil urlParse CanonicalMIMEHeaderKey clientDo
                  headerRest readAll g URL refererURL cookies body))
  /\ Fallback.bare (fst (Exchange.PostMultipartFormDataUtil urlParse
                  CanonicalMIMEHeaderKey clientDo headerRest readAll
                  multipartBuild g URL refererURL cookies boundary postMap files)).
Proof.
  split; [apply exchange_bare|]. split; [apply exchange_bare|].
  split; [apply exchange_bare|]. split; [apply exchange_bare|].
  split; [apply exchange_bare|].
  unfold Exchange.PostMultipartFormDataUtil.
  destruct (multipartBuild boundary postMap files) as [err|[b ct]]; cbn [fst].
  - intros html url e H. injection H as <- <- _. auto.
  - match goal with
    | |- context [Exchange.newHttpRequest ?a ?b ?c ?d ?e ?f ?h ?i] =>
        destruct (Exchange.newHttpRequest a b c d e f h i) as [[err|req]|msg]
    end; cbn [fst].
    + intros html url e H. injection H as <- <- _. auto.
    + unfold Exchange.wrapReply.
      match goal with
      | |- context [Exchange.request ?a ?b ?c ?d ?e] =>
          pose proof (request_bare d e) as Hb;
          destruct (Exchange.request a b c d e) as [[[h u] [er|]]|msg]
      end.
      * intros html url e H. injection H as <- <- _. auto.
      * intros html url e H. discriminate.
      * intros html url e H. discriminate.
    + intros html url e H. discriminate.
Qed.






End Operations.


Lemma operations_return_nothing_with_an_error_witness :
  fst (Exchange.GetUtil (GoStr.url_Parse GoStr.acceptAll) (fun k => k)
         Exchange.exampleDo (fun _ => None) (fun d => inr d)
         Exchange.chromeInstance GoStr.proxyWithNewline "" "")
  = Returned ([], ""%string, Some (ErrInvalidURL GoStr.proxyWithNewline)).
Proof.
  assert (E : exists html url,
            fst (Exchange.GetUtil (GoStr.url_Parse GoStr.acceptAll) (fun k => k)
                   Exchange.exampleDo (fun _ => None) (fun d => inr d)
                   Exchange.chromeInstance GoStr.proxyWithNewline "" "")
            = Returned (html, url, Some (ErrInvalidURL GoStr.proxyWithNewline)))
    by (eexists _, _; vm_compute; reflexivity).
  destruct E as (html & url & E).
  destruct (operations_return_nothing_with_an_error
              (GoStr.url_Parse GoStr.acceptAll) (fun k => k) Exchange.exampleDo
              (fun _ => None) (fun d => inr d) (fun _ => [])
              (fun _ _ _ => inl ErrAbortHandler)
              Exchange.chromeInstance GoStr.proxyWithNewline ""%string ""%string
              ""%string ∅ [] ∅) as [H _].
  destruct (H html url _ E) as [-> ->]. exact E.
Defined.


Lemma Ungzip_errors_only_on_signed_data_witness :
  Gzip.Ungzip (fun _ => None) (fun d => inr d) Gzip.hello = (Gzip.hello, None).
Proof.
  destruct (Ungzip_errors_only_on_signed_data (fun _ => None) (fun d => inr d)
              Gzip.hello) as [H _].
  apply H. reflexivity.
Defined.
